(** * Verification of the exponential back-off [Retrier]

    The repository holds two generations of the same [Retrier]:

    - [src/retrier.go]: [New(floor, ceil)], the budget is unlimited when
      [Attempts] is [0];
    - [src/unnamed/part_001]: [New(floor, ceil, opts...)], the budget is
      unlimited when [Attempts] is negative.

    Both are embedded below, each in a module named after its file.  The
    struct is the same in both files and is declared once.  Go primitives the
    code relies on ([int64] arithmetic, IEEE 754 binary64 arithmetic, the
    conversions between them) are collected in module [Go]. *)

From Stdlib Require Import ZArith Lia List Bool.
From Stdlib Require Import Floats.SpecFloat.
Import ListNotations.
Open Scope Z_scope.

(** ** Go primitives *)

Module Go.

(** [float64] is IEEE 754 binary64: 53 bits of precision, infinities at
    exponent 1024.  The operations are the ones of the Standard Library's
    specification of binary floating point. *)
Definition float64 : Type := spec_float.
Definition prec : Z := 53.
Definition emax : Z := 1024.

Definition fmul (x y : float64) : float64 := SFmul prec emax x y.
Definition fadd (x y : float64) : float64 := SFadd prec emax x y.
Definition feqb (x y : float64) : bool := SFeqb x y.

Definition fzero : float64 := S754_zero false.

(** [float64(n)] for an integer [n]: rounded to the nearest float, ties to
    even. *)
Definition float64_of_int (n : Z) : float64 :=
  binary_normalize prec emax n 0 false.

(** [int64]: two's complement on 64 bits.  [int], the type of [Attempts],
    is taken to be 64 bits wide as well. *)
Definition min_int64 : Z := - 2 ^ 63.
Definition max_int64 : Z := 2 ^ 63 - 1.

Definition in_int64 (z : Z) : Prop := min_int64 <= z <= max_int64.
Definition in_int64b (z : Z) : bool := (min_int64 <=? z) && (z <=? max_int64).

Definition wrap64 (z : Z) : Z := (z + 2 ^ 63) mod 2 ^ 64 - 2 ^ 63.

(** The integral part of a finite float (rounding toward zero); [None] for
    a NaN or an infinity. *)
Definition ftrunc (f : float64) : option Z :=
  match f with
  | S754_zero _ => Some 0
  | S754_finite s m e => Some (cond_Zopp s (Z.shiftl (Zpos m) e))
  | S754_infinity _ | S754_nan => None
  end.

(** Does [int64(f)] have a value fixed by the language? *)
Definition fits_int64 (f : float64) : bool :=
  match ftrunc f with
  | Some z => in_int64b z
  | None => false
  end.

Section Conversion.

(** The language leaves [int64(f)] to the implementation when [f] is a
    NaN, an infinity or has an integral part outside [int64]: the
    conversion succeeds with an implementation-dependent value.  [oor]
    is that value. *)
Variable oor : float64 -> Z.

Definition int64_of_float (f : float64) : Z :=
  match ftrunc f with
  | Some z => if in_int64b z then z else oor f
  | None => oor f
  end.

End Conversion.

(** On amd64 the conversion instruction answers every such input with the
    "integer indefinite" value, the smallest [int64]. *)
Definition oor_amd64 (_ : float64) : Z := min_int64.

(** [math.Phi], the binary64 nearest to the golden ratio:
    [0x3FF9E3779B97F4A8]. *)
Definition Phi : float64 := S754_finite false 7286977268806824 (-52).

End Go.

(** [time.Duration] is an [int64] count of nanoseconds. *)
Definition Duration : Type := Z.
Definition Millisecond : Duration := 1000000.
Definition Second : Duration := 1000000000.
Definition Hour : Duration := 3600 * Second.

(** ** The struct *)

Record Retrier : Type := mkRetrier {
  Attempts : Z;           (* int: remaining attempts *)
  Delay : Duration;       (* current delay between attempts *)
  Floor : Duration;       (* minimum delay *)
  Ceil : Duration;        (* maximum delay *)
  Rate : Go.float64;      (* growth rate of the delay *)
  Jitter : Go.float64     (* standard deviation of the delay, as a fraction *)
}.

(** Field assignment [r.Delay = d] and [r.Attempts = n]. *)
Definition setDelay (d : Duration) (r : Retrier) : Retrier :=
  mkRetrier (Attempts r) d (Floor r) (Ceil r) (Rate r) (Jitter r).

Definition setAttempts (n : Z) (r : Retrier) : Retrier :=
  mkRetrier n (Delay r) (Floor r) (Ceil r) (Rate r) (Jitter r).

Definition setRate (x : Go.float64) (r : Retrier) : Retrier :=
  mkRetrier (Attempts r) (Delay r) (Floor r) (Ceil r) x (Jitter r).

Definition setJitter (j : Go.float64) (r : Retrier) : Retrier :=
  mkRetrier (Attempts r) (Delay r) (Floor r) (Ceil r) (Rate r) j.

(** ** What one call of [Wait] takes from its surroundings

    [Wait] reads the context twice and, when jitter is on, the process-wide
    random generator once.  One [World] fixes what a call finds there. *)

Inductive Selected : Type :=
| TimerFired   (* case <-time.After(r.Delay) *)
| CtxDone.     (* case <-ctx.Done() *)

Record World : Type := mkWorld {
  done_at_entry : bool;      (* is ctx.Done() ready in the first select? *)
  norm : Go.float64;         (* what rand.NormFloat64() returns *)
  race : Selected            (* the case the second select takes *)
}.

(** What a call of [Wait] does: the boolean it returns, the argument of
    [time.After] when the call got as far as the second select (a timer set
    to zero or less fires at once), and the struct it leaves behind. *)
Record Outcome : Type := mkOutcome {
  ok : bool;
  timer : option Duration;
  after : Retrier
}.

(** The second select of [Wait], the same in both files. *)
Definition sleep (r : Retrier) (w : World) : Outcome :=
  match race w with
  | TimerFired =>
      let r' := if Delay r <? Floor r then setDelay (Floor r) r else r in
      mkOutcome true (Some (Delay r)) r'
  | CtxDone => mkOutcome false (Some (Delay r)) r
  end.

(** A token that never triggers. *)
Definition quiet (w : World) : Prop :=
  done_at_entry w = false /\ race w = TimerFired.

(** A caller's sequence of calls on one instance. *)
Inductive Call : Type :=
| CallWait (w : World)
| CallReset.

(** ** What the two files share

    [applyJitter], the first part of [Wait] up to the budget check and
    [Reset] read the same in [src/retrier.go] and [src/unnamed/part_001]. *)

Section Shared.

(** The value of an out-of-range conversion on the platform at hand. *)
Variable oor : Go.float64 -> Z.

(** [sample] stands for the call [rand.NormFloat64()].  The two products
    and the sum are rounded one by one. *)
Definition applyJitter (d : Duration) (jitter sample : Go.float64) : Duration :=
  if Go.feqb jitter Go.fzero then d
  else
    Go.int64_of_float oor
      (Go.fadd (Go.fmul sample (Go.fmul jitter (Go.float64_of_int d)))
               (Go.float64_of_int d)).

(** [time.Duration(float64(d) * rate)]. *)
Definition scaled (d : Duration) (rate : Go.float64) : Duration :=
  Go.int64_of_float oor (Go.fmul (Go.float64_of_int d) rate).

(** [Wait] from the growth to the clamp to the ceiling
    ([retrier.go] lines 70-78, [part_001] lines 96-104). *)
Definition grow (r : Retrier) (w : World) : Retrier :=
  let r1 := if Delay r <? Ceil r
            then setDelay (scaled (Delay r) (Rate r)) r
            else r in
  let r2 := setDelay (applyJitter (Delay r1) (Jitter r1) (norm w)) r1 in
  if Delay r2 >? Ceil r2 then setDelay (Ceil r2) r2 else r2.

Definition Reset (r : Retrier) : Retrier := setDelay 0 r.

End Shared.

(** Running a sequence of calls with a given [Wait]: the outcomes of the
    [Wait]s, in order, and the struct at the end. *)
Fixpoint run (wait : Retrier -> World -> Outcome) (r : Retrier)
    (cs : list Call) : list Outcome * Retrier :=
  match cs with
  | [] => ([], r)
  | CallWait w :: cs' =>
      let o := wait r w in
      let (os, r') := run wait (after o) cs' in (o :: os, r')
  | CallReset :: cs' => run wait (Reset r) cs'
  end.

(** The delays of the calls that returned [true]. *)
Fixpoint delays (os : list Outcome) : list Duration :=
  match os with
  | [] => []
  | o :: os' =>
      match ok o, timer o with
      | true, Some d => d :: delays os'
      | _, _ => delays os'
      end
  end.

(** ** [src/retrier.go] *)

Module retrier_go.

Definition New (floor ceil : Duration) : Retrier :=
  {| Attempts := 0;
     Delay := 0;
     Floor := floor;
     Ceil := ceil;
     Rate := Go.Phi;
     Jitter := Go.fzero |}.

(** Lines 80-85, the budget check; [None] is its [return false]. *)
Definition budget (r : Retrier) : option Retrier :=
  if Attempts r >? 0 then
    if Attempts r =? 1 then None
    else Some (setAttempts (Go.wrap64 (Attempts r - 1)) r)
  else Some r.

Definition Wait (oor : Go.float64 -> Z) (r : Retrier) (w : World) : Outcome :=
  if done_at_entry w then mkOutcome false None r
  else
    let r := grow oor r w in
    match budget r with
    | None => mkOutcome false None r
    | Some r => sleep r w
    end.

End retrier_go.

(** ** [src/unnamed/part_001] *)

Module part_001.

Definition Option : Type := Retrier -> Retrier.

(** The option constructors [Attempts], [Rate] and [Jitter] of the source;
    they sit in [Opt] because the fields have the same names. *)
Module Opt.
Definition Attempts (n : Z) : Option := fun r => setAttempts n r.
Definition Rate (x : Go.float64) : Option := fun r => setRate x r.
Definition Jitter (j : Go.float64) : Option := fun r => setJitter j r.
End Opt.

Definition New (floor ceil : Duration) (opts : list Option) : Retrier :=
  let r := {| Attempts := -1;
              Delay := 0;
              Floor := floor;
              Ceil := ceil;
              Rate := Go.Phi;
              Jitter := Go.fzero |} in
  fold_left (fun r setOpt => setOpt r) opts r.

(** Lines 106-112, the budget check; [None] is its [return false]. *)
Definition budget (r : Retrier) : option Retrier :=
  if Attempts r >=? 0 then
    let a := Go.wrap64 (Attempts r - 1) in
    if a <? 0 then None
    else Some (setAttempts a r)
  else Some r.

Definition Wait (oor : Go.float64 -> Z) (r : Retrier) (w : World) : Outcome :=
  if done_at_entry w then mkOutcome false None r
  else
    let r := grow oor r w in
    match budget r with
    | None => mkOutcome false None r
    | Some r => sleep r w
    end.

End part_001.

(** ** Constants used in the examples *)

(** A call during which the token stays untriggered; the sample is unused
    when jitter is off. *)
Definition calm : World := mkWorld false Go.fzero TimerFired.

(** The floats [2], [0.5], [-3] and [1e10]. *)
Definition f_two : Go.float64 := S754_finite false 4503599627370496 (-51).
Definition f_half : Go.float64 := S754_finite false 4503599627370496 (-53).
Definition f_minus_three : Go.float64 := S754_finite true 6755399441055744 (-51).
Definition f_1e10 : Go.float64 := S754_finite false 5242880000000000 (-19).

(** ** Predicates of the statements *)

(** A finite budget that is used up: the next budget check returns [false]. *)
Definition exhausted_go (r : Retrier) : Prop := Attempts r = 1.
Definition exhausted_001 (r : Retrier) : Prop := Attempts r = 0.

(** A call that stopped before the second select: [false], no timer. *)
Definition refused (o : Outcome) : Prop := ok o = false /\ timer o = None.

(** [l] never decreases and stays at [c] once it is there. *)
Fixpoint climbs (c : Z) (l : list Z) : Prop :=
  match l with
  | a :: (b :: _) as l' => a <= b /\ (a = c -> b = c) /\ climbs c l'
  | _ => True
  end.

(** The struct a fresh instance with the parameters of [r] starts from. *)
Definition fresh_go (r : Retrier) : Retrier :=
  setJitter (Jitter r) (setRate (Rate r) (retrier_go.New (Floor r) (Ceil r))).

Definition fresh_001 (r : Retrier) : Retrier :=
  part_001.New (Floor r) (Ceil r)
    [part_001.Opt.Rate (Rate r); part_001.Opt.Jitter (Jitter r)].

(** The worlds of [n] calls without cancellation. *)
Definition calls (ws : list World) : list Call := map CallWait ws.

(** The float [1], and what it means for a rate to be a binary64 above it:
    [spec_float] also holds mantissas and exponents that no binary64 has,
    [is_float64] rules them out. *)
Definition f_one : Go.float64 := S754_finite false 4503599627370496 (-52).

Definition is_float64 (x : Go.float64) : Prop :=
  valid_binary Go.prec Go.emax x = true.

Definition above_one (x : Go.float64) : Prop := SFltb f_one x = true.

(** Growth never leaves [int64]: for every delay below the ceiling that
    growth can start from, [float64(d) * Rate] converts to an [int64] with
    the value the language fixes. *)
Definition growth_fits (r : Retrier) : Prop :=
  forall d, 0 <= d < Ceil r ->
    Go.fits_int64 (Go.fmul (Go.float64_of_int d) (Rate r)) = true.

(** A check on the parameters that is enough for [growth_fits]: four times
    the ceiling times the rate is at most [2^63] (the rate is
    [mr * 2^er]; both sides are scaled by [2^52]). *)
Definition growth_bounded (r : Retrier) : Prop :=
  match Rate r with
  | S754_finite false mr er =>
      4 * Ceil r * (Zpos mr * 2 ^ (er + 52)) <= 2 ^ 115
  | _ => False
  end.

(** ** Further notions

    The options a caller of [part_001.New] can write with the three
    constructors of the file, and the function each one is. *)
Inductive OptName : Type :=
| OAttempts (n : Z)
| ORate (x : Go.float64)
| OJitter (j : Go.float64).

Definition option_of (o : OptName) : part_001.Option :=
  match o with
  | OAttempts n => part_001.Opt.Attempts n
  | ORate x => part_001.Opt.Rate x
  | OJitter j => part_001.Opt.Jitter j
  end.

(** The argument of the last option of each kind in a list, if any. *)
Fixpoint last_attempts (os : list OptName) : option Z :=
  match os with
  | [] => None
  | o :: os' =>
      match last_attempts os', o with
      | Some n, _ => Some n
      | None, OAttempts n => Some n
      | None, _ => None
      end
  end.

Fixpoint last_rate (os : list OptName) : option Go.float64 :=
  match os with
  | [] => None
  | o :: os' =>
      match last_rate os', o with
      | Some x, _ => Some x
      | None, ORate x => Some x
      | None, _ => None
      end
  end.

Fixpoint last_jitter (os : list OptName) : option Go.float64 :=
  match os with
  | [] => None
  | o :: os' =>
      match last_jitter os', o with
      | Some j, _ => Some j
      | None, OJitter j => Some j
      | None, _ => None
      end
  end.

Definition or_default {A : Type} (o : option A) (d : A) : A :=
  match o with Some a => a | None => d end.

(** A float that is neither a NaN nor an infinity. *)
Definition is_finite (f : Go.float64) : bool :=
  match f with
  | S754_zero _ | S754_finite _ _ _ => true
  | S754_infinity _ | S754_nan => false
  end.


(** A call a caller makes while the token stays untriggered. *)
Definition quiet_call (c : Call) : Prop :=
  match c with CallWait w => quiet w | CallReset => True end.

(** How many calls started a timer, and how many returned [true]. *)
Definition timers_started (os : list Outcome) : nat :=
  length (filter (fun o => match timer o with Some _ => true | None => false end) os).

Definition proceeds (os : list Outcome) : nat :=
  length (filter ok os).

(** The float [2^j] for a small [j]: mantissa [2^52], exponent [j - 52]. *)
Definition f_pow2 (j : Z) : Go.float64 :=
  S754_finite false 4503599627370496 (j - 52).

(** ** Basic facts *)

Lemma wrap64_id z : Go.in_int64 z -> Go.wrap64 z = z.
Proof.
  unfold Go.in_int64, Go.min_int64, Go.max_int64, Go.wrap64. intros H.
  rewrite Z.mod_small; lia.
Qed.

Section Frame.

Variable oor : Go.float64 -> Z.

Lemma grow_frame r w :
  Attempts (grow oor r w) = Attempts r /\ Floor (grow oor r w) = Floor r /\
  Ceil (grow oor r w) = Ceil r /\ Rate (grow oor r w) = Rate r /\
  Jitter (grow oor r w) = Jitter r.
Proof.
  unfold grow. destruct (Delay r <? Ceil r); cbn;
    match goal with |- context [if ?c then _ else _] => destruct c end;
    cbn; auto.
Qed.

Lemma grow_le_Ceil r w : Delay (grow oor r w) <= Ceil r.
Proof.
  unfold grow. destruct (Delay r <? Ceil r); cbn;
    match goal with |- context [?a >? ?b] => destruct (Z.gtb_spec a b) end;
    cbn in *; lia.
Qed.

Lemma sleep_fired r w :
  race w = TimerFired ->
  sleep r w = mkOutcome true (Some (Delay r))
                (setDelay (Z.max (Delay r) (Floor r)) r).
Proof.
  unfold sleep. intros ->. destruct (Z.ltb_spec (Delay r) (Floor r)).
  - now rewrite Z.max_r by lia.
  - rewrite Z.max_l by lia. now destruct r.
Qed.

Lemma sleep_cancelled r w :
  race w = CtxDone -> sleep r w = mkOutcome false (Some (Delay r)) r.
Proof. unfold sleep. now intros ->. Qed.

Lemma sleep_ok r w : ok (sleep r w) = true -> race w = TimerFired.
Proof. unfold sleep. now destruct (race w). Qed.

End Frame.

Lemma budget_go_spec r :
  Go.in_int64 (Attempts r) ->
  retrier_go.budget r =
    if Attempts r <=? 0 then Some r
    else if Attempts r =? 1 then None
    else Some (setAttempts (Attempts r - 1) r).
Proof.
  intros H. unfold retrier_go.budget.
  destruct (Z.gtb_spec (Attempts r) 0), (Z.leb_spec (Attempts r) 0); try lia; auto.
  destruct (Z.eqb_spec (Attempts r) 1); auto.
  rewrite wrap64_id; auto. unfold Go.in_int64, Go.min_int64, Go.max_int64 in *. lia.
Qed.

Lemma budget_001_spec r :
  Go.in_int64 (Attempts r) ->
  part_001.budget r =
    if Attempts r <? 0 then Some r
    else if Attempts r =? 0 then None
    else Some (setAttempts (Attempts r - 1) r).
Proof.
  intros H. unfold part_001.budget.
  destruct (Z.geb_spec (Attempts r) 0), (Z.ltb_spec (Attempts r) 0); try lia; auto.
  rewrite wrap64_id
    by (unfold Go.in_int64, Go.min_int64, Go.max_int64 in *; lia).
  destruct (Z.ltb_spec (Attempts r - 1) 0), (Z.eqb_spec (Attempts r) 0);
    try lia; auto.
Qed.

Lemma budget_go_frame r r' :
  retrier_go.budget r = Some r' ->
  Delay r' = Delay r /\ Floor r' = Floor r /\ Ceil r' = Ceil r /\
  Rate r' = Rate r /\ Jitter r' = Jitter r.
Proof.
  unfold retrier_go.budget.
  destruct (Attempts r >? 0); [destruct (Attempts r =? 1)|];
    intros [= <-]; cbn; auto.
Qed.

Lemma budget_001_frame r r' :
  part_001.budget r = Some r' ->
  Delay r' = Delay r /\ Floor r' = Floor r /\ Ceil r' = Ceil r /\
  Rate r' = Rate r /\ Jitter r' = Jitter r.
Proof.
  unfold part_001.budget.
  destruct (Attempts r >=? 0); [destruct (_ <? 0)|];
    intros [= <-]; cbn; auto.
Qed.

(** An invariant of the struct that every call keeps holds along a whole
    sequence of calls, and so does what it says of each outcome. *)
Lemma run_invariant (wait : Retrier -> World -> Outcome)
    (I : Retrier -> Prop) (Q : Outcome -> Prop) :
  (forall r w, I r -> Q (wait r w) /\ I (after (wait r w))) ->
  (forall r, I r -> I (Reset r)) ->
  forall cs r, I r ->
    Forall Q (fst (run wait r cs)) /\ I (snd (run wait r cs)).
Proof.
  intros Hw Hr. induction cs as [|[w|] cs IH]; intros r Hi; cbn.
  - split; [constructor | assumption].
  - destruct (Hw r w Hi) as [Hq Hi'].
    specialize (IH _ Hi'). destruct (run wait (after (wait r w)) cs) as [os r'].
    cbn in *. destruct IH. split; [constructor|]; assumption.
  - apply IH, Hr, Hi.
Qed.

(** ** One call of [Wait] *)

Section OneCall.

Variable oor : Go.float64 -> Z.

(** What [Wait] of [src/retrier.go] does, path by path. *)
Lemma Wait_go_paths r w :
  retrier_go.Wait oor r w =
    if done_at_entry w then mkOutcome false None r
    else match retrier_go.budget (grow oor r w) with
         | None => mkOutcome false None (grow oor r w)
         | Some r4 => sleep r4 w
         end.
Proof. reflexivity. Qed.

Lemma Wait_001_paths r w :
  part_001.Wait oor r w =
    if done_at_entry w then mkOutcome false None r
    else match part_001.budget (grow oor r w) with
         | None => mkOutcome false None (grow oor r w)
         | Some r4 => sleep r4 w
         end.
Proof. reflexivity. Qed.

(** A call that returns [true] went through the second select with the
    timer firing first. *)
Lemma Wait_go_true r w :
  ok (retrier_go.Wait oor r w) = true ->
  exists r4, retrier_go.budget (grow oor r w) = Some r4 /\
             retrier_go.Wait oor r w =
               mkOutcome true (Some (Delay r4))
                 (setDelay (Z.max (Delay r4) (Floor r4)) r4).
Proof.
  rewrite Wait_go_paths. destruct (done_at_entry w); [discriminate|].
  destruct (retrier_go.budget (grow oor r w)) as [r4|]; [|discriminate].
  intros H. exists r4. split; [reflexivity|].
  apply sleep_fired. eapply sleep_ok; eassumption.
Qed.

Lemma Wait_001_true r w :
  ok (part_001.Wait oor r w) = true ->
  exists r4, part_001.budget (grow oor r w) = Some r4 /\
             part_001.Wait oor r w =
               mkOutcome true (Some (Delay r4))
                 (setDelay (Z.max (Delay r4) (Floor r4)) r4).
Proof.
  rewrite Wait_001_paths. destruct (done_at_entry w); [discriminate|].
  destruct (part_001.budget (grow oor r w)) as [r4|]; [|discriminate].
  intros H. exists r4. split; [reflexivity|].
  apply sleep_fired. eapply sleep_ok; eassumption.
Qed.

(** [Wait] writes [Delay] and [Attempts] only. *)
Lemma Wait_go_frame r w :
  let r' := after (retrier_go.Wait oor r w) in
  Floor r' = Floor r /\ Ceil r' = Ceil r /\ Rate r' = Rate r /\
  Jitter r' = Jitter r.
Proof.
  cbn. rewrite Wait_go_paths. destruct (done_at_entry w); cbn; auto.
  destruct (grow_frame oor r w) as (_ & Hf & Hc & Hr & Hj).
  destruct (retrier_go.budget (grow oor r w)) as [r4|] eqn:Hb; cbn; auto.
  apply budget_go_frame in Hb. destruct Hb as (_ & Hf' & Hc' & Hr' & Hj').
  unfold sleep. destruct (race w); cbn;
    [destruct (Delay r4 <? Floor r4); cbn|]; repeat split; congruence.
Qed.

Lemma Wait_001_frame r w :
  let r' := after (part_001.Wait oor r w) in
  Floor r' = Floor r /\ Ceil r' = Ceil r /\ Rate r' = Rate r /\
  Jitter r' = Jitter r.
Proof.
  cbn. rewrite Wait_001_paths. destruct (done_at_entry w); cbn; auto.
  destruct (grow_frame oor r w) as (_ & Hf & Hc & Hr & Hj).
  destruct (part_001.budget (grow oor r w)) as [r4|] eqn:Hb; cbn; auto.
  apply budget_001_frame in Hb. destruct Hb as (_ & Hf' & Hc' & Hr' & Hj').
  unfold sleep. destruct (race w); cbn;
    [destruct (Delay r4 <? Floor r4); cbn|]; repeat split; congruence.
Qed.

End OneCall.

(** ** Reset *)

(** C7. [Reset] sets the delay to zero and leaves every other field as it
    was; in particular the attempt budget is neither restored nor changed. *)
Theorem Reset_clears_delay_only (r : Retrier) :
  Delay (Reset r) = 0 /\
  Attempts (Reset r) = Attempts r /\
  Floor (Reset r) = Floor r /\ Ceil (Reset r) = Ceil r /\
  Rate (Reset r) = Rate r /\ Jitter (Reset r) = Jitter r.
Proof. unfold Reset. cbn. repeat split. Qed.

(** ** The stored delay after a call that says "proceed" *)

(** C3. When [Floor <= Ceil], a call of [Wait] that returns [true] leaves a
    stored delay between [Floor] and [Ceil], whatever the jitter and the
    sample drawn, in both files; the bounds themselves are not written. *)
Theorem proceed_leaves_delay_in_bounds
    (oor : Go.float64 -> Z) (r : Retrier) (w : World) :
  Floor r <= Ceil r ->
  (ok (retrier_go.Wait oor r w) = true ->
     let r' := after (retrier_go.Wait oor r w) in
     Floor r <= Delay r' <= Ceil r /\ Floor r' = Floor r /\ Ceil r' = Ceil r) /\
  (ok (part_001.Wait oor r w) = true ->
     let r' := after (part_001.Wait oor r w) in
     Floor r <= Delay r' <= Ceil r /\ Floor r' = Floor r /\ Ceil r' = Ceil r).
Proof.
  intros Hfc.
  pose proof (grow_le_Ceil oor r w) as Hle.
  destruct (grow_frame oor r w) as (_ & Hf & Hc & _).
  split; intros Hok; cbn.
  - destruct (Wait_go_true oor r w Hok) as (r4 & Hb & ->). cbn.
    apply budget_go_frame in Hb. destruct Hb as (Hd & Hf4 & Hc4 & _).
    rewrite Hd, Hf4, Hc4, Hf, Hc. repeat split; lia.
  - destruct (Wait_001_true oor r w Hok) as (r4 & Hb & ->). cbn.
    apply budget_001_frame in Hb. destruct Hb as (Hd & Hf4 & Hc4 & _).
    rewrite Hd, Hf4, Hc4, Hf, Hc. repeat split; lia.
Qed.

Lemma proceed_leaves_delay_in_bounds_witness :
  let r := setAttempts 5 (setJitter f_half
             (retrier_go.New Millisecond (100 * Millisecond))) in
  let w := mkWorld false f_minus_three TimerFired in
  Floor r <= Ceil r /\
  ok (retrier_go.Wait Go.oor_amd64 r w) = true /\
  ok (part_001.Wait Go.oor_amd64 r w) = true /\
  Floor r <= Delay (after (retrier_go.Wait Go.oor_amd64 r w)) <= Ceil r /\
  Floor r <= Delay (after (part_001.Wait Go.oor_amd64 r w)) <= Ceil r.
Proof.
  intros r w.
  assert (Hfc : Floor r <= Ceil r) by (vm_compute; discriminate).
  destruct (proceed_leaves_delay_in_bounds Go.oor_amd64 r w Hfc) as [Hg H1].
  split; [exact Hfc|].
  split; [reflexivity|]. split; [reflexivity|].
  split; [exact (proj1 (Hg eq_refl)) | exact (proj1 (H1 eq_refl))].
Defined.


(** ** Cancellation *)

(** C6. A token found triggered makes [Wait] return [false], in both files.
    Found at entry, the struct is left as it was.  Found by the second
    select, the struct is left as it was when that select began ([r4], the
    struct after growth, jitter, clamp and budget step): nothing is written
    after the token is observed. *)
Theorem cancelled_wait_stops_and_writes_nothing
    (oor : Go.float64 -> Z) (r : Retrier) (w : World) :
  (done_at_entry w = true ->
     retrier_go.Wait oor r w = mkOutcome false None r /\
     part_001.Wait oor r w = mkOutcome false None r) /\
  (done_at_entry w = false -> race w = CtxDone ->
     (ok (retrier_go.Wait oor r w) = false /\
      forall r4, retrier_go.budget (grow oor r w) = Some r4 ->
        retrier_go.Wait oor r w = mkOutcome false (Some (Delay r4)) r4) /\
     (ok (part_001.Wait oor r w) = false /\
      forall r4, part_001.budget (grow oor r w) = Some r4 ->
        part_001.Wait oor r w = mkOutcome false (Some (Delay r4)) r4)).
Proof.
  split.
  - intros He. rewrite Wait_go_paths, Wait_001_paths, He. split; reflexivity.
  - intros He Hr. rewrite Wait_go_paths, Wait_001_paths, He. split.
    + destruct (retrier_go.budget (grow oor r w)) as [r4|].
      * rewrite (sleep_cancelled r4 w Hr). split; [reflexivity|].
        now intros ? [= <-].
      * split; [reflexivity | discriminate].
    + destruct (part_001.budget (grow oor r w)) as [r4|].
      * rewrite (sleep_cancelled r4 w Hr). split; [reflexivity|].
        now intros ? [= <-].
      * split; [reflexivity | discriminate].
Qed.

Lemma cancelled_wait_stops_and_writes_nothing_witness :
  let r := setAttempts 3 (setDelay Millisecond
             (retrier_go.New Millisecond (100 * Millisecond))) in
  let r4 := setAttempts 2 (setDelay 1618033 r) in
  (retrier_go.Wait Go.oor_amd64 r (mkWorld true Go.fzero TimerFired)
     = mkOutcome false None r /\
   part_001.Wait Go.oor_amd64 r (mkWorld true Go.fzero TimerFired)
     = mkOutcome false None r) /\
  retrier_go.Wait Go.oor_amd64 r (mkWorld false Go.fzero CtxDone)
    = mkOutcome false (Some 1618033) r4 /\
  part_001.Wait Go.oor_amd64 r (mkWorld false Go.fzero CtxDone)
    = mkOutcome false (Some 1618033) r4.
Proof.
  intros r r4. split; [|split].
  - exact (proj1 (cancelled_wait_stops_and_writes_nothing Go.oor_amd64 r
                    (mkWorld true Go.fzero TimerFired)) eq_refl).
  - exact (proj2 (proj1 (proj2 (cancelled_wait_stops_and_writes_nothing
                    Go.oor_amd64 r (mkWorld false Go.fzero CtxDone))
                    eq_refl eq_refl)) r4 eq_refl).
  - exact (proj2 (proj2 (proj2 (cancelled_wait_stops_and_writes_nothing
                    Go.oor_amd64 r (mkWorld false Go.fzero CtxDone))
                    eq_refl eq_refl)) r4 eq_refl).
Defined.

(** ** The attempt budget *)

Section Budget.

Variable oor : Go.float64 -> Z.

(** A call on a used-up budget is refused and leaves the budget alone. *)
Lemma exhausted_go_step r w :
  exhausted_go r ->
  (refused (retrier_go.Wait oor r w) /\
     Attempts (after (retrier_go.Wait oor r w)) = 1) /\
  exhausted_go (after (retrier_go.Wait oor r w)).
Proof.
  unfold exhausted_go, refused. intros H. rewrite Wait_go_paths.
  destruct (done_at_entry w); cbn; auto.
  destruct (grow_frame oor r w) as (Ha & _).
  unfold retrier_go.budget. rewrite Ha, H. cbn. rewrite Ha. auto.
Qed.

Lemma exhausted_001_step r w :
  exhausted_001 r ->
  (refused (part_001.Wait oor r w) /\
     Attempts (after (part_001.Wait oor r w)) = 0) /\
  exhausted_001 (after (part_001.Wait oor r w)).
Proof.
  unfold exhausted_001, refused. intros H. rewrite Wait_001_paths.
  destruct (done_at_entry w); cbn; auto.
  destruct (grow_frame oor r w) as (Ha & _).
  unfold part_001.budget. rewrite Ha, H. cbn. rewrite Ha. auto.
Qed.

(** The budget check fires on a used-up budget only. *)
Lemma refused_go_exhausted r w :
  Go.in_int64 (Attempts r) -> done_at_entry w = false ->
  refused (retrier_go.Wait oor r w) ->
  exhausted_go (after (retrier_go.Wait oor r w)).
Proof.
  unfold refused, exhausted_go. intros Hi He. rewrite Wait_go_paths, He.
  destruct (grow_frame oor r w) as (Ha & _).
  rewrite budget_go_spec by now rewrite Ha. rewrite Ha.
  destruct (Attempts r <=? 0); [|destruct (Z.eqb_spec (Attempts r) 1)];
    cbn; unfold sleep; destruct (race w); cbn; intros [_ [=]]; congruence.
Qed.

Lemma refused_001_exhausted r w :
  Go.in_int64 (Attempts r) -> done_at_entry w = false ->
  refused (part_001.Wait oor r w) ->
  exhausted_001 (after (part_001.Wait oor r w)).
Proof.
  unfold refused, exhausted_001. intros Hi He. rewrite Wait_001_paths, He.
  destruct (grow_frame oor r w) as (Ha & _).
  rewrite budget_001_spec by now rewrite Ha. rewrite Ha.
  destruct (Attempts r <? 0); [|destruct (Z.eqb_spec (Attempts r) 0)];
    cbn; unfold sleep; destruct (race w); cbn; intros [_ [=]]; congruence.
Qed.

End Budget.

(** C5. Once the budget check has fired (a call got past the entry check and
    was refused before the second select), every later call of [Wait] is
    refused too, whatever the token, the jitter and the [Reset]s in between:
    it returns [false], starts no timer, and the budget keeps its value
    ([1] in [src/retrier.go], [0] in [part_001]). *)
Theorem exhausted_budget_stops_for_good
    (oor : Go.float64 -> Z) (r1 r2 : Retrier) (w1 w2 : World) (cs : list Call) :
  Go.in_int64 (Attempts r1) -> done_at_entry w1 = false ->
  refused (retrier_go.Wait oor r1 w1) ->
  Go.in_int64 (Attempts r2) -> done_at_entry w2 = false ->
  refused (part_001.Wait oor r2 w2) ->
  (let r' := after (retrier_go.Wait oor r1 w1) in
   Forall (fun o => refused o /\ Attempts (after o) = 1)
          (fst (run (retrier_go.Wait oor) r' cs)) /\
   Attempts r' = 1 /\ Attempts (snd (run (retrier_go.Wait oor) r' cs)) = 1) /\
  (let r' := after (part_001.Wait oor r2 w2) in
   Forall (fun o => refused o /\ Attempts (after o) = 0)
          (fst (run (part_001.Wait oor) r' cs)) /\
   Attempts r' = 0 /\ Attempts (snd (run (part_001.Wait oor) r' cs)) = 0).
Proof.
  intros Hi1 He1 Hf1 Hi2 He2 Hf2. split; cbn.
  - pose proof (refused_go_exhausted oor r1 w1 Hi1 He1 Hf1) as Hx.
    destruct (run_invariant (retrier_go.Wait oor) exhausted_go
                (fun o => refused o /\ Attempts (after o) = 1)
                (exhausted_go_step oor) (fun r H => H) cs _ Hx) as [HF HI].
    auto.
  - pose proof (refused_001_exhausted oor r2 w2 Hi2 He2 Hf2) as Hx.
    destruct (run_invariant (part_001.Wait oor) exhausted_001
                (fun o => refused o /\ Attempts (after o) = 0)
                (exhausted_001_step oor) (fun r H => H) cs _ Hx) as [HF HI].
    auto.
Qed.

Lemma exhausted_budget_stops_for_good_witness :
  let oor := Go.oor_amd64 in
  let r1 := setAttempts 1 (retrier_go.New Millisecond (100 * Millisecond)) in
  let r2 := part_001.New Millisecond (100 * Millisecond)
              [part_001.Opt.Attempts 0] in
  let cs := [CallWait calm; CallReset;
             CallWait (mkWorld true Go.fzero CtxDone); CallWait calm] in
  (refused (retrier_go.Wait oor r1 calm) /\
   refused (part_001.Wait oor r2 calm)) /\
  (let r' := after (retrier_go.Wait oor r1 calm) in
   Forall (fun o => refused o /\ Attempts (after o) = 1)
          (fst (run (retrier_go.Wait oor) r' cs)) /\
   Attempts r' = 1 /\ Attempts (snd (run (retrier_go.Wait oor) r' cs)) = 1) /\
  (let r' := after (part_001.Wait oor r2 calm) in
   Forall (fun o => refused o /\ Attempts (after o) = 0)
          (fst (run (part_001.Wait oor) r' cs)) /\
   Attempts r' = 0 /\ Attempts (snd (run (part_001.Wait oor) r' cs)) = 0).
Proof.
  intros oor r1 r2 cs.
  assert (H1 : Go.in_int64 (Attempts r1)) by (vm_compute; split; discriminate).
  assert (H2 : Go.in_int64 (Attempts r2)) by (vm_compute; split; discriminate).
  assert (F1 : refused (retrier_go.Wait oor r1 calm)) by (split; reflexivity).
  assert (F2 : refused (part_001.Wait oor r2 calm)) by (split; reflexivity).
  split; [split; assumption|].
  exact (exhausted_budget_stops_for_good oor r1 r2 calm calm cs
           H1 eq_refl F1 H2 eq_refl F2).
Defined.

Section Sentinel.

Variable oor : Go.float64 -> Z.

(** In [src/retrier.go] a call keeps the budget or takes one from a budget
    above [1]. *)
Lemma Wait_go_budget_step r w :
  Go.in_int64 (Attempts r) ->
  Attempts (after (retrier_go.Wait oor r w)) = Attempts r \/
  (1 < Attempts r /\
   Attempts (after (retrier_go.Wait oor r w)) = Attempts r - 1).
Proof.
  intros Hi. rewrite Wait_go_paths. destruct (done_at_entry w); cbn; auto.
  destruct (grow_frame oor r w) as (Ha & _).
  rewrite budget_go_spec by now rewrite Ha. rewrite Ha.
  destruct (Z.leb_spec (Attempts r) 0); [|destruct (Z.eqb_spec (Attempts r) 1)];
    cbn; auto; unfold sleep; destruct (race w); cbn;
    try match goal with |- context [if ?c then _ else _] => destruct c end;
    cbn; auto; right; split; auto; lia.
Qed.

Lemma positive_budget_step r w :
  1 <= Attempts r /\ Go.in_int64 (Attempts r) ->
  1 <= Attempts (after (retrier_go.Wait oor r w)) /\
  (1 <= Attempts (after (retrier_go.Wait oor r w)) /\
   Go.in_int64 (Attempts (after (retrier_go.Wait oor r w)))).
Proof.
  intros [Hp Hi]. pose proof (Wait_go_budget_step r w Hi) as H.
  unfold Go.in_int64, Go.min_int64, Go.max_int64 in *.
  destruct H as [-> | [Hgt ->]]; lia.
Qed.

End Sentinel.

(** C9. In [src/retrier.go], where [Attempts = 0] means "unlimited", a call
    of [Wait] takes one from the budget only when the budget is above [1].
    So a budget that starts positive stays at [1] or above along every
    sequence of [Wait] and [Reset] calls and never turns into the sentinel. *)
Theorem finite_budget_never_becomes_unlimited
    (oor : Go.float64 -> Z) (r : Retrier) (cs : list Call) :
  0 < Attempts r -> Go.in_int64 (Attempts r) ->
  (forall w, Attempts (after (retrier_go.Wait oor r w)) = Attempts r \/
             (1 < Attempts r /\
              Attempts (after (retrier_go.Wait oor r w)) = Attempts r - 1)) /\
  Forall (fun o => 1 <= Attempts (after o))
         (fst (run (retrier_go.Wait oor) r cs)) /\
  1 <= Attempts (snd (run (retrier_go.Wait oor) r cs)).
Proof.
  intros Hp Hi. split.
  - intros w. now apply Wait_go_budget_step.
  - destruct (run_invariant (retrier_go.Wait oor)
                (fun r => 1 <= Attempts r /\ Go.in_int64 (Attempts r))
                (fun o => 1 <= Attempts (after o))
                (positive_budget_step oor) (fun r H => H) cs r) as [HF [HI _]].
    + split; [lia | assumption].
    + split; assumption.
Qed.

Lemma finite_budget_never_becomes_unlimited_witness :
  let r := setAttempts 3 (retrier_go.New Millisecond (100 * Millisecond)) in
  let cs := [CallWait calm; CallWait calm; CallReset; CallWait calm;
             CallWait (mkWorld false Go.fzero CtxDone); CallWait calm] in
  0 < Attempts r /\
  Forall (fun o => 1 <= Attempts (after o))
         (fst (run (retrier_go.Wait Go.oor_amd64) r cs)) /\
  1 <= Attempts (snd (run (retrier_go.Wait Go.oor_amd64) r cs)).
Proof.
  intros r cs.
  assert (Hp : 0 < Attempts r) by reflexivity.
  assert (Hi : Go.in_int64 (Attempts r)) by (vm_compute; split; discriminate).
  split; [exact Hp|].
  exact (proj2 (finite_budget_never_becomes_unlimited Go.oor_amd64 r cs Hp Hi)).
Defined.

(** ** Where the floor is applied *)

Section FloorClamp.

Variable oor : Go.float64 -> Z.

Lemma Wait_go_stored_delay r w :
  Delay (after (retrier_go.Wait oor r w)) =
    if ok (retrier_go.Wait oor r w)
    then Z.max (Delay (grow oor r w)) (Floor r)
    else if done_at_entry w then Delay r else Delay (grow oor r w).
Proof.
  destruct (ok (retrier_go.Wait oor r w)) eqn:Hok.
  - destruct (Wait_go_true oor r w Hok) as (r4 & Hb & ->). cbn.
    apply budget_go_frame in Hb. destruct Hb as (-> & -> & _).
    now destruct (grow_frame oor r w) as (_ & -> & _).
  - revert Hok. rewrite Wait_go_paths. destruct (done_at_entry w); auto.
    destruct (retrier_go.budget (grow oor r w)) as [r4|] eqn:Hb; auto.
    apply budget_go_frame in Hb. destruct Hb as (<- & _).
    unfold sleep. now destruct (race w).
Qed.

Lemma Wait_001_stored_delay r w :
  Delay (after (part_001.Wait oor r w)) =
    if ok (part_001.Wait oor r w)
    then Z.max (Delay (grow oor r w)) (Floor r)
    else if done_at_entry w then Delay r else Delay (grow oor r w).
Proof.
  destruct (ok (part_001.Wait oor r w)) eqn:Hok.
  - destruct (Wait_001_true oor r w Hok) as (r4 & Hb & ->). cbn.
    apply budget_001_frame in Hb. destruct Hb as (-> & -> & _).
    now destruct (grow_frame oor r w) as (_ & -> & _).
  - revert Hok. rewrite Wait_001_paths. destruct (done_at_entry w); auto.
    destruct (part_001.budget (grow oor r w)) as [r4|] eqn:Hb; auto.
    apply budget_001_frame in Hb. destruct Hb as (<- & _).
    unfold sleep. now destruct (race w).
Qed.

End FloorClamp.

(** C10. In both files the stored delay is raised to [Floor] exactly when
    [Wait] returns [true]; when it returns [false] the stored delay is the
    one it had at entry (token found triggered there) or the one growth,
    jitter and the clamp to the ceiling produced, with no floor applied.
    So after a [false] the stored delay can be below [Floor] on each of the
    three paths (with floor 1ms it is [0] after a first call that is
    cancelled at entry, refused by the budget or cancelled during the
    sleep), and with jitter on it can be negative (jitter 0.5, sample -3,
    second call cancelled during the sleep: -809016ns). *)
Theorem floor_clamp_skipped_when_stopping (oor : Go.float64 -> Z) :
  (forall r w,
     Delay (after (retrier_go.Wait oor r w)) =
       (if ok (retrier_go.Wait oor r w)
        then Z.max (Delay (grow oor r w)) (Floor r)
        else if done_at_entry w then Delay r else Delay (grow oor r w)) /\
     Delay (after (part_001.Wait oor r w)) =
       (if ok (part_001.Wait oor r w)
        then Z.max (Delay (grow oor r w)) (Floor r)
        else if done_at_entry w then Delay r else Delay (grow oor r w))) /\
  (let r := retrier_go.New Millisecond (100 * Millisecond) in
   let r' := part_001.New Millisecond (100 * Millisecond) [] in
   let at_entry := mkWorld true Go.fzero TimerFired in
   let in_sleep := mkWorld false Go.fzero CtxDone in
   retrier_go.Wait oor r at_entry = mkOutcome false None (setDelay 0 r) /\
   retrier_go.Wait oor (setAttempts 1 r) calm
     = mkOutcome false None (setDelay 0 (setAttempts 1 r)) /\
   retrier_go.Wait oor r in_sleep = mkOutcome false (Some 0) (setDelay 0 r) /\
   part_001.Wait oor r' at_entry = mkOutcome false None (setDelay 0 r') /\
   part_001.Wait oor (setAttempts 0 r') calm
     = mkOutcome false None (setDelay 0 (setAttempts 0 r')) /\
   part_001.Wait oor r' in_sleep = mkOutcome false (Some 0) (setDelay 0 r') /\
   0 < Floor r /\ 0 < Floor r') /\
  (let cs := [CallWait calm; CallWait (mkWorld false f_minus_three CtxDone)] in
   let r := setJitter f_half (retrier_go.New Millisecond (100 * Millisecond)) in
   let r' := part_001.New Millisecond (100 * Millisecond)
               [part_001.Opt.Jitter f_half] in
   SFltb Go.fzero (Jitter r) = true /\ SFltb Go.fzero (Jitter r') = true /\
   map ok (fst (run (retrier_go.Wait oor) r cs)) = [true; false] /\
   Delay (snd (run (retrier_go.Wait oor) r cs)) = -809016 /\
   map ok (fst (run (part_001.Wait oor) r' cs)) = [true; false] /\
   Delay (snd (run (part_001.Wait oor) r' cs)) = -809016).
Proof.
  split; [|split].
  - intros r w. split.
    + apply Wait_go_stored_delay.
    + apply Wait_001_stored_delay.
  - cbv zeta. repeat split; vm_compute; reflexivity.
  - cbv zeta. repeat split; vm_compute; reflexivity.
Qed.

(** ** Reset, then Wait *)

Section AfterReset.

Variable oor : Go.float64 -> Z.

(** Growth, jitter and clamp do not look at the budget. *)
Lemma grow_setAttempts a r w :
  grow oor (setAttempts a r) w = setAttempts a (grow oor r w).
Proof.
  unfold grow. cbn. destruct (Delay r <? Ceil r); cbn;
    match goal with |- context [if ?c then _ else _] => destruct c end;
    reflexivity.
Qed.

Lemma Reset_is_fresh_go r : Reset r = setAttempts (Attempts r) (fresh_go r).
Proof. reflexivity. Qed.

Lemma Reset_is_fresh_001 r : Reset r = setAttempts (Attempts r) (fresh_001 r).
Proof. reflexivity. Qed.

End AfterReset.

(** C8. With jitter off and no cancellation, [Wait] after [Reset] computes
    the delay that the first [Wait] computes on a fresh instance with the
    same floor, ceiling and rate: the same value comes out of growth and
    clamp, and, when the budget lets the call through, the same timer is
    started and the same delay is stored.  The fresh instance has an
    unlimited budget, so its call always goes through. *)
Theorem wait_after_reset_is_first_wait
    (oor : Go.float64 -> Z) (r : Retrier) (w : World) :
  Go.feqb (Jitter r) Go.fzero = true -> quiet w ->
  (let o := retrier_go.Wait oor (Reset r) w in
   let o0 := retrier_go.Wait oor (fresh_go r) w in
   Delay (grow oor (Reset r) w) = Delay (grow oor (fresh_go r) w) /\
   ok o0 = true /\
   (ok o = true ->
      timer o = timer o0 /\ Delay (after o) = Delay (after o0))) /\
  (let o := part_001.Wait oor (Reset r) w in
   let o0 := part_001.Wait oor (fresh_001 r) w in
   Delay (grow oor (Reset r) w) = Delay (grow oor (fresh_001 r) w) /\
   ok o0 = true /\
   (ok o = true ->
      timer o = timer o0 /\ Delay (after o) = Delay (after o0))).
Proof.
  intros _ [He Hr]. split; cbv zeta.
  - assert (Hg : Delay (grow oor (Reset r) w) = Delay (grow oor (fresh_go r) w))
      by (rewrite Reset_is_fresh_go, grow_setAttempts; reflexivity).
    assert (Hok : ok (retrier_go.Wait oor (fresh_go r) w) = true).
    { rewrite Wait_go_paths, He. unfold retrier_go.budget.
      destruct (grow_frame oor (fresh_go r) w) as (-> & _). cbn.
      now rewrite sleep_fired. }
    split; [exact Hg|]. split; [exact Hok|]. intros Hok'.
    pose proof (Wait_go_stored_delay oor (Reset r) w) as S1.
    pose proof (Wait_go_stored_delay oor (fresh_go r) w) as S0.
    rewrite Hok' in S1. rewrite Hok in S0. rewrite S1, S0, Hg. split; auto.
    destruct (Wait_go_true oor _ _ Hok') as (r4 & Hb & ->).
    destruct (Wait_go_true oor _ _ Hok) as (r5 & Hb0 & ->). cbn.
    apply budget_go_frame in Hb, Hb0. destruct Hb as (-> & _).
    destruct Hb0 as (-> & _). now rewrite Hg.
  - assert (Hg : Delay (grow oor (Reset r) w) = Delay (grow oor (fresh_001 r) w))
      by (rewrite Reset_is_fresh_001, grow_setAttempts; reflexivity).
    assert (Hok : ok (part_001.Wait oor (fresh_001 r) w) = true).
    { rewrite Wait_001_paths, He. unfold part_001.budget.
      destruct (grow_frame oor (fresh_001 r) w) as (-> & _). cbn.
      now rewrite sleep_fired. }
    split; [exact Hg|]. split; [exact Hok|]. intros Hok'.
    pose proof (Wait_001_stored_delay oor (Reset r) w) as S1.
    pose proof (Wait_001_stored_delay oor (fresh_001 r) w) as S0.
    rewrite Hok' in S1. rewrite Hok in S0. rewrite S1, S0, Hg. split; auto.
    destruct (Wait_001_true oor _ _ Hok') as (r4 & Hb & ->).
    destruct (Wait_001_true oor _ _ Hok) as (r5 & Hb0 & ->). cbn.
    apply budget_001_frame in Hb, Hb0. destruct Hb as (-> & _).
    destruct Hb0 as (-> & _). now rewrite Hg.
Qed.

Lemma wait_after_reset_is_first_wait_witness :
  let r := setAttempts 4 (setDelay (37 * Millisecond)
             (setRate f_two (retrier_go.New Millisecond (100 * Millisecond)))) in
  let oor := Go.oor_amd64 in
  (Go.feqb (Jitter r) Go.fzero = true /\ quiet calm) /\
  timer (retrier_go.Wait oor (Reset r) calm)
    = timer (retrier_go.Wait oor (fresh_go r) calm) /\
  timer (part_001.Wait oor (Reset r) calm)
    = timer (part_001.Wait oor (fresh_001 r) calm).
Proof.
  intros r oor.
  assert (Hj : Go.feqb (Jitter r) Go.fzero = true) by reflexivity.
  assert (Hq : quiet calm) by (split; reflexivity).
  destruct (wait_after_reset_is_first_wait oor r calm Hj Hq)
    as [(_ & _ & Hg) (_ & _ & H1)].
  split; [split; assumption|].
  split; [exact (proj1 (Hg eq_refl)) | exact (proj1 (H1 eq_refl))].
Defined.

(** ** Sequences of calls without cancellation *)

(** [run_invariant] for sequences whose [Wait]s all meet worlds in [P]. *)
Lemma run_invariant_on (wait : Retrier -> World -> Outcome)
    (P : World -> Prop) (I : Retrier -> Prop) (Q : Outcome -> Prop) :
  (forall r w, P w -> I r -> Q (wait r w) /\ I (after (wait r w))) ->
  forall ws r, Forall P ws -> I r ->
    Forall Q (fst (run wait r (calls ws))) /\ I (snd (run wait r (calls ws))).
Proof.
  intros Hw. induction ws as [|w ws IH]; intros r HP Hi; cbn.
  - split; [constructor | assumption].
  - inversion HP as [|? ? Hp HP']; subst.
    destruct (Hw r w Hp Hi) as [Hq Hi'].
    specialize (IH _ HP' Hi'). change (map CallWait ws) with (calls ws).
    destruct (run wait (after (wait r w)) (calls ws)) as [os r'].
    cbn in *. destruct IH. split; [constructor|]; assumption.
Qed.

Section Counting.

Variable oor : Go.float64 -> Z.

(** A call that meets no cancellation and a budget above [1]
    ([src/retrier.go]) or above [0] ([part_001]) returns [true] and takes
    one from the budget. *)
Lemma Wait_go_spends r w :
  quiet w -> 1 < Attempts r -> Go.in_int64 (Attempts r) ->
  ok (retrier_go.Wait oor r w) = true /\
  Attempts (after (retrier_go.Wait oor r w)) = Attempts r - 1.
Proof.
  intros [He Hr] Hgt Hi. rewrite Wait_go_paths, He.
  destruct (grow_frame oor r w) as (Ha & _).
  rewrite budget_go_spec by now rewrite Ha. rewrite Ha.
  destruct (Z.leb_spec (Attempts r) 0); [lia|].
  destruct (Z.eqb_spec (Attempts r) 1); [lia|].
  rewrite sleep_fired by assumption. cbn. auto.
Qed.

Lemma Wait_001_spends r w :
  quiet w -> 0 < Attempts r -> Go.in_int64 (Attempts r) ->
  ok (part_001.Wait oor r w) = true /\
  Attempts (after (part_001.Wait oor r w)) = Attempts r - 1.
Proof.
  intros [He Hr] Hgt Hi. rewrite Wait_001_paths, He.
  destruct (grow_frame oor r w) as (Ha & _).
  rewrite budget_001_spec by now rewrite Ha. rewrite Ha.
  destruct (Z.ltb_spec (Attempts r) 0); [lia|].
  destruct (Z.eqb_spec (Attempts r) 0); [lia|].
  rewrite sleep_fired by assumption. cbn. auto.
Qed.

Lemma run_go_counts n : forall r ws,
  Attempts r = Z.of_nat (S n) -> Go.in_int64 (Attempts r) ->
  length ws = S n -> Forall quiet ws ->
  map ok (fst (run (retrier_go.Wait oor) r (calls ws))) = repeat true n ++ [false].
Proof.
  induction n as [|n IH]; intros r [|w ws] Ha Hi Hl Hq; try discriminate;
    inversion Hq as [|? ? Hw Hq']; subst; cbn [calls map run].
  - destruct ws; [|discriminate].
    destruct (exhausted_go_step oor r w Ha) as [[[Hok _] _] _].
    cbn. now rewrite Hok.
  - destruct (Wait_go_spends r w Hw) as [Hok Hdec]; [lia | assumption |].
    assert (Hi' : Go.in_int64 (Attempts (after (retrier_go.Wait oor r w))))
      by (unfold Go.in_int64, Go.min_int64, Go.max_int64 in *; lia).
    specialize (IH (after (retrier_go.Wait oor r w)) ws).
    fold (calls ws).
    destruct (run (retrier_go.Wait oor) (after (retrier_go.Wait oor r w))
                (calls ws)) as [os r'].
    cbn in *. rewrite Hok, IH; auto; lia.
Qed.

Lemma run_001_counts n : forall r ws,
  Attempts r = Z.of_nat n -> Go.in_int64 (Attempts r) ->
  length ws = S n -> Forall quiet ws ->
  map ok (fst (run (part_001.Wait oor) r (calls ws))) = repeat true n ++ [false].
Proof.
  induction n as [|n IH]; intros r [|w ws] Ha Hi Hl Hq; try discriminate;
    inversion Hq as [|? ? Hw Hq']; subst; cbn [calls map run].
  - destruct ws; [|discriminate].
    destruct (exhausted_001_step oor r w Ha) as [[[Hok _] _] _].
    cbn. now rewrite Hok.
  - destruct (Wait_001_spends r w Hw) as [Hok Hdec]; [lia | assumption |].
    assert (Hi' : Go.in_int64 (Attempts (after (part_001.Wait oor r w))))
      by (unfold Go.in_int64, Go.min_int64, Go.max_int64 in *; lia).
    specialize (IH (after (part_001.Wait oor r w)) ws).
    fold (calls ws).
    destruct (run (part_001.Wait oor) (after (part_001.Wait oor r w))
                (calls ws)) as [os r'].
    cbn in *. rewrite Hok, IH; auto; lia.
Qed.

End Counting.

(** C1, as the code has it.  With a budget [k >= 1] and a token that never
    triggers, whatever the jitter: in [src/retrier.go] ([r], budget in the
    field [Attempts]) the first [k - 1] calls of [Wait] return [true] and
    call [k] returns [false]; in [part_001] ([r'], budget set at
    construction by the option [Attempts(k)]) the first [k] calls return
    [true] and call [k + 1] returns [false]. *)
Theorem budget_of_k_counts_calls
    (oor : Go.float64 -> Z) (k : Z) (r r' : Retrier)
    (ws : list World) (w : World) :
  1 <= k <= Go.max_int64 -> Attempts r = k -> Attempts r' = k ->
  length ws = Z.to_nat k -> Forall quiet ws -> quiet w ->
  map ok (fst (run (retrier_go.Wait oor) r (calls ws)))
    = repeat true (Z.to_nat (k - 1)) ++ [false] /\
  map ok (fst (run (part_001.Wait oor) r' (calls (ws ++ [w]))))
    = repeat true (Z.to_nat k) ++ [false].
Proof.
  intros Hk Ha Ha' Hl Hq Hw.
  assert (Hi : Go.in_int64 k)
    by (unfold Go.in_int64, Go.min_int64, Go.max_int64 in *; lia).
  split.
  - apply run_go_counts; rewrite ?Ha; auto; lia.
  - apply run_001_counts; rewrite ?Ha'; auto; try lia.
    + rewrite length_app. cbn. lia.
    + apply Forall_app. split; [assumption | constructor; [assumption | constructor]].
Qed.

Lemma budget_of_k_counts_calls_witness :
  let ws := repeat calm 5 in
  let r := setAttempts 5 (retrier_go.New Millisecond (100 * Millisecond)) in
  map ok (fst (run (retrier_go.Wait Go.oor_amd64) r (calls ws)))
    = [true; true; true; true; false] /\
  map ok (fst (run (part_001.Wait Go.oor_amd64)
                 (part_001.New Millisecond (100 * Millisecond)
                    [part_001.Opt.Attempts 5])
                 (calls (ws ++ [calm]))))
    = [true; true; true; true; true; false].
Proof.
  intros ws r.
  assert (Hq : quiet calm) by (split; reflexivity).
  assert (Hk : 1 <= 5 <= Go.max_int64) by (vm_compute; split; discriminate).
  assert (Hqs : Forall quiet ws) by (repeat constructor).
  exact (budget_of_k_counts_calls Go.oor_amd64 5 r
           (part_001.New Millisecond (100 * Millisecond)
              [part_001.Opt.Attempts 5])
           ws calm Hk eq_refl eq_refl eq_refl Hqs Hq).
Defined.

(** C1 as stated fails on [part_001]: with [Attempts(5)] set at
    construction the fifth call still returns [true]. *)
Lemma budget_of_5_part_001_fifth_call_proceeds :
  let r := part_001.New Millisecond (100 * Millisecond)
             [part_001.Opt.Attempts 5] in
  map ok (fst (run (part_001.Wait Go.oor_amd64) r (calls (repeat calm 5))))
    = [true; true; true; true; true] /\
  map ok (fst (run (part_001.Wait Go.oor_amd64) r (calls (repeat calm 5))))
    <> repeat true 4 ++ [false].
Proof. split; [vm_compute; reflexivity | vm_compute; discriminate]. Qed.

(** ** The scenario with a zero floor *)

Section ZeroFloor.

Variable oor : Go.float64 -> Z.

(** With floor 0 and jitter off, a call that meets no cancellation on a
    zero delay sleeps for 0 and stores 0 again. *)
Lemma zero_floor_go_step r w :
  quiet w ->
  r = setRate f_two (retrier_go.New 0 (100 * Millisecond)) ->
  (ok (retrier_go.Wait oor r w) = true /\
   timer (retrier_go.Wait oor r w) = Some 0) /\
  after (retrier_go.Wait oor r w)
    = setRate f_two (retrier_go.New 0 (100 * Millisecond)).
Proof.
  destruct w as [e n s]. intros [He Hs] ->. cbn in He, Hs. subst e s.
  repeat split.
Qed.

Lemma zero_floor_001_step r w :
  quiet w ->
  r = part_001.New 0 (100 * Millisecond) [part_001.Opt.Rate f_two] ->
  (ok (part_001.Wait oor r w) = true /\
   timer (part_001.Wait oor r w) = Some 0) /\
  after (part_001.Wait oor r w)
    = part_001.New 0 (100 * Millisecond) [part_001.Opt.Rate f_two].
Proof.
  destruct w as [e n s]. intros [He Hs] ->. cbn in He, Hs. subst e s.
  repeat split.
Qed.

End ZeroFloor.

(** C2 as stated fails: with floor 0, ceiling 100ms, rate 2, jitter 0, an
    unlimited budget and no cancellation, the five delays are all zero; no
    call is delayed by a positive amount. *)
Lemma zero_floor_five_delays_all_zero :
  let r := setRate f_two (retrier_go.New 0 (100 * Millisecond)) in
  let ds := delays (fst (run (retrier_go.Wait Go.oor_amd64) r
                           (calls (repeat calm 5)))) in
  ds = [0; 0; 0; 0; 0] /\ ~ (exists d, In d ds /\ 0 < d).
Proof.
  cbv zeta.
  assert (E : delays (fst (run (retrier_go.Wait Go.oor_amd64)
                (setRate f_two (retrier_go.New 0 (100 * Millisecond)))
                (calls (repeat calm 5)))) = [0; 0; 0; 0; 0])
    by (vm_compute; reflexivity).
  rewrite E. split; [reflexivity|].
  intros (d & Hin & Hd). cbn in Hin. lia.
Qed.

(** C2, as the code has it.  With floor 0, ceiling 100ms, rate 2, jitter 0,
    an unlimited budget and no cancellation, every call of [Wait], any
    number of them, returns [true] with a zero delay: the first call is
    unthrottled, and so are the later ones, since growth multiplies a zero
    delay and a zero floor does not lift it.  Delays that are positive,
    grow and are capped at 100ms need a positive floor: with floor 1ms ten
    calls give 0, 2, 4, 8, 16, 32, 64, 100, 100, 100 ms. *)
Theorem zero_floor_never_delays
    (oor : Go.float64 -> Z) (ws : list World) :
  Forall quiet ws ->
  Forall (fun o => ok o = true /\ timer o = Some 0)
         (fst (run (retrier_go.Wait oor)
                 (setRate f_two (retrier_go.New 0 (100 * Millisecond)))
                 (calls ws))) /\
  Forall (fun o => ok o = true /\ timer o = Some 0)
         (fst (run (part_001.Wait oor)
                 (part_001.New 0 (100 * Millisecond) [part_001.Opt.Rate f_two])
                 (calls ws))) /\
  delays (fst (run (retrier_go.Wait oor)
                 (setRate f_two (retrier_go.New Millisecond (100 * Millisecond)))
                 (calls (repeat calm 10))))
    = map (fun ms => ms * Millisecond) [0; 2; 4; 8; 16; 32; 64; 100; 100; 100] /\
  delays (fst (run (part_001.Wait oor)
                 (part_001.New Millisecond (100 * Millisecond)
                    [part_001.Opt.Rate f_two])
                 (calls (repeat calm 10))))
    = map (fun ms => ms * Millisecond) [0; 2; 4; 8; 16; 32; 64; 100; 100; 100].
Proof.
  intros Hq. split; [|split; [|split]].
  - apply (run_invariant_on (retrier_go.Wait oor) quiet
             (fun r => r = setRate f_two (retrier_go.New 0 (100 * Millisecond)))
             (fun o => ok o = true /\ timer o = Some 0));
      [intros r w; apply zero_floor_go_step | assumption | reflexivity].
  - apply (run_invariant_on (part_001.Wait oor) quiet
             (fun r => r = part_001.New 0 (100 * Millisecond)
                             [part_001.Opt.Rate f_two])
             (fun o => ok o = true /\ timer o = Some 0));
      [intros r w; apply zero_floor_001_step | assumption | reflexivity].
  - vm_compute. reflexivity.
  - vm_compute. reflexivity.
Qed.

Lemma zero_floor_never_delays_witness :
  let ws := repeat calm 5 in
  Forall quiet ws /\
  Forall (fun o => ok o = true /\ timer o = Some 0)
         (fst (run (retrier_go.Wait Go.oor_amd64)
                 (setRate f_two (retrier_go.New 0 (100 * Millisecond)))
                 (calls ws))) /\
  Forall (fun o => ok o = true /\ timer o = Some 0)
         (fst (run (part_001.Wait Go.oor_amd64)
                 (part_001.New 0 (100 * Millisecond) [part_001.Opt.Rate f_two])
                 (calls ws))).
Proof.
  intros ws.
  assert (Hq : Forall quiet ws) by (repeat constructor).
  destruct (zero_floor_never_delays Go.oor_amd64 ws Hq) as (H1 & H2 & _).
  split; [exact Hq|]. split; [exact H1 | exact H2].
Defined.

(** ** Rounding to binary64

    What the Standard Library's [binary_round_aux] returns for a positive
    value in the normal range, in terms of integer division. *)

Lemma digits2_pos_bounds p :
  2 ^ (Zpos (digits2_pos p) - 1) <= Zpos p < 2 ^ Zpos (digits2_pos p).
Proof.
  induction p as [p IH|p IH|]; cbn [digits2_pos].
  - rewrite Pos2Z.inj_succ.
    replace (Z.succ (Zpos (digits2_pos p)) - 1)
      with (Z.succ (Zpos (digits2_pos p) - 1)) by lia.
    rewrite !Z.pow_succ_r by lia. lia.
  - rewrite Pos2Z.inj_succ.
    replace (Z.succ (Zpos (digits2_pos p)) - 1)
      with (Z.succ (Zpos (digits2_pos p) - 1)) by lia.
    rewrite !Z.pow_succ_r by lia. lia.
  - cbn. lia.
Qed.

Lemma pow2_le_1 n : n <= 0 -> 2 ^ n <= 1.
Proof.
  intros H. destruct (Z.eq_dec n 0) as [->|]; [cbn; lia|].
  rewrite Z.pow_neg_r; lia.
Qed.

Lemma digits2_pos_unique p n :
  2 ^ (n - 1) <= Zpos p < 2 ^ n -> Zpos (digits2_pos p) = n.
Proof.
  intros [Hl Hu]. pose proof (digits2_pos_bounds p) as [Bl Bu].
  assert (0 < n) by (destruct (Z.ltb_spec 0 n); auto; pose proof (pow2_le_1 n); lia).
  destruct (Z.lt_trichotomy (Zpos (digits2_pos p)) n) as [Hlt|[->|Hgt]]; auto; exfalso.
  - assert (2 ^ Zpos (digits2_pos p) <= 2 ^ (n - 1)) by (apply Z.pow_le_mono_r; lia). lia.
  - assert (2 ^ n <= 2 ^ (Zpos (digits2_pos p) - 1)) by (apply Z.pow_le_mono_r; lia). lia.
Qed.

Lemma shr_1_m mrs : 0 <= shr_m mrs -> shr_m (shr_1 mrs) = shr_m mrs / 2.
Proof.
  destruct mrs as [m r s]. cbn [shr_m]. intros H.
  destruct m as [|[p|p|]|p]; cbn [shr_1 shr_m]; try reflexivity; try lia.
  - apply Z.div_unique with 1; lia.
  - apply Z.div_unique with 0; lia.
Qed.

Lemma pow2_xO p : 2 ^ Zpos p~0 = 2 ^ Zpos p * 2 ^ Zpos p.
Proof. rewrite <- Z.pow_add_r by lia. f_equal. lia. Qed.

Lemma pow2_xI p : 2 ^ Zpos p~1 = 2 * (2 ^ Zpos p * 2 ^ Zpos p).
Proof.
  rewrite <- Z.pow_add_r, <- Z.pow_succ_r by lia. f_equal. lia.
Qed.

Lemma iter_shr_1_m p : forall mrs,
  0 <= shr_m mrs ->
  shr_m (iter_pos shr_1 p mrs) = shr_m mrs / 2 ^ Zpos p.
Proof.
  induction p as [p IH|p IH|]; intros mrs H; cbn [iter_pos].
  - assert (H1 : 0 <= shr_m (shr_1 mrs))
      by (rewrite shr_1_m by assumption; apply Z.div_pos; lia).
    assert (H2 : 0 <= shr_m (iter_pos shr_1 p (shr_1 mrs)))
      by (rewrite IH by assumption; apply Z.div_pos; lia).
    rewrite IH, IH, shr_1_m by assumption.
    rewrite !Z.div_div by lia. now rewrite pow2_xI, Z.mul_assoc.
  - assert (H2 : 0 <= shr_m (iter_pos shr_1 p mrs))
      by (rewrite IH by assumption; apply Z.div_pos; lia).
    rewrite IH, IH by assumption.
    rewrite !Z.div_div by lia. now rewrite pow2_xO.
  - rewrite shr_1_m by assumption. reflexivity.
Qed.

Lemma round_nearest_even_bounds q l : q <= round_nearest_even q l <= q + 1.
Proof.
  unfold round_nearest_even. destruct l as [|[| |]]; try destruct (Z.even q); lia.
Qed.

Lemma iter_xO n : forall p, Zpos (Pos.iter xO p n) = Zpos p * 2 ^ Zpos n.
Proof.
  induction n as [n IH|n IH|]; intros p; cbn [Pos.iter].
  - rewrite Pos2Z.inj_xO, IH, IH, pow2_xI. lia.
  - rewrite IH, IH, pow2_xO. lia.
  - rewrite Pos2Z.inj_xO. change (2 ^ 1) with 2. lia.
Qed.

Lemma shr_shift mrs e n :
  0 <= shr_m mrs -> 0 <= n ->
  shr_m (fst (shr mrs e n)) = shr_m mrs / 2 ^ n /\ snd (shr mrs e n) = e + n.
Proof.
  intros Hm Hn. destruct n as [|p|p]; cbn [shr fst snd]; try lia.
  - rewrite Z.pow_0_r, Z.div_1_r. lia.
  - rewrite iter_shr_1_m by assumption. lia.
Qed.

Lemma shr_fexp_shift m e n :
  0 <= m -> 0 <= n ->
  fexp 53 1024 (Zdigits2 m + e) - e = n ->
  shr_m (fst (shr_fexp 53 1024 m e loc_Exact)) = m / 2 ^ n /\
  snd (shr_fexp 53 1024 m e loc_Exact) = e + n.
Proof.
  intros Hm Hn Hf. unfold shr_fexp. rewrite Hf.
  apply (shr_shift (shr_record_of_loc m loc_Exact) e n); cbn; assumption.
Qed.

Lemma div_pow2_bounds m a k :
  0 <= k -> 0 <= a -> 2 ^ (a + k) <= m < 2 ^ (a + k + 1) ->
  2 ^ a <= m / 2 ^ k < 2 ^ (a + 1).
Proof.
  intros Hk Ha [Hl Hu].
  assert (Hp : 0 < 2 ^ k) by (apply Z.pow_pos_nonneg; lia).
  rewrite Z.pow_add_r in Hl by lia.
  replace (a + k + 1) with ((a + 1) + k) in Hu by lia.
  rewrite Z.pow_add_r in Hu by lia.
  split.
  - apply Z.div_le_lower_bound; lia.
  - apply Z.div_lt_upper_bound; lia.
Qed.

(** The result of rounding [m * 2^ex] when [m] has at least 53 digits and
    the value is in the normal range. *)
Lemma binary_round_aux_shape (m : positive) (ex : Z) :
  let dg := Zpos (digits2_pos m) in
  let k := dg - 53 in
  let q := Zpos m / 2 ^ k in
  53 <= dg -> -1074 <= ex + k ->
  2 ^ 52 <= q < 2 ^ 53 /\
  ((binary_round_aux 53 1024 false (Zpos m) ex loc_Exact = S754_infinity false
    /\ 971 <= ex + k) \/
   exists m' e',
     binary_round_aux 53 1024 false (Zpos m) ex loc_Exact
       = S754_finite false m' e' /\
     e' <= 971 /\
     ((e' = ex + k /\ q <= Zpos m' <= q + 1 /\ Zpos m' < 2 ^ 53) \/
      (e' = ex + k + 1 /\ Zpos m' = 2 ^ 52 /\ q + 1 = 2 ^ 53))).
Proof.
  intros dg k q Hdg Hex.
  assert (Hq : 2 ^ 52 <= q < 2 ^ 53).
  { apply (div_pow2_bounds (Zpos m) 52 k); try lia.
    pose proof (digits2_pos_bounds m) as B. fold dg in B.
    replace (52 + k + 1) with dg by lia. replace (52 + k) with (dg - 1) by lia.
    exact B. }
  split; [exact Hq|].
  unfold binary_round_aux.
  destruct (shr_fexp_shift (Zpos m) ex k) as [E1 E2]; try lia.
  { unfold fexp, emin. cbn [Zdigits2]. fold dg. lia. }
  destruct (shr_fexp 53 1024 (Zpos m) ex loc_Exact) as [mrs' e'].
  cbn [fst snd] in E1, E2. fold q in E1. subst e'.
  pose proof (round_nearest_even_bounds (shr_m mrs') (loc_of_shr_record mrs')) as R.
  rewrite E1 in R. rewrite E1.
  set (q' := round_nearest_even q (loc_of_shr_record mrs')) in *.
  destruct q' as [|pq|pq] eqn:Eq'; try lia.
  destruct (Z.eq_dec (Zpos pq) (2 ^ 53)) as [Htop|Htop].
  - (* the mantissa rounded up to 2^53: one more shift *)
    destruct (shr_fexp_shift (Zpos pq) (ex + k) 1) as [F1 F2]; try lia.
    { unfold fexp, emin. cbn [Zdigits2].
      rewrite (digits2_pos_unique pq 54) by (rewrite Htop; cbn; lia). lia. }
    destruct (shr_fexp 53 1024 (Zpos pq) (ex + k) loc_Exact) as [mrs'' e''].
    cbn [fst snd] in F1, F2. subst e''. rewrite F1, Htop.
    change (2 ^ 53 / 2 ^ 1) with (Zpos 4503599627370496).
    destruct (Z.leb_spec (ex + k + 1) (1024 - 53));
      [right | left; split; [reflexivity | lia]].
    eexists _, _. split; [reflexivity|]. split; [lia|].
    right. repeat split; try lia.
  - destruct (shr_fexp_shift (Zpos pq) (ex + k) 0) as [F1 F2]; try lia.
    { unfold fexp, emin. cbn [Zdigits2].
      rewrite (digits2_pos_unique pq 53) by (change (53 - 1) with 52; lia). lia. }
    destruct (shr_fexp 53 1024 (Zpos pq) (ex + k) loc_Exact) as [mrs'' e''].
    cbn [fst snd] in F1, F2. subst e''. rewrite F1, Z.pow_0_r, Z.div_1_r, Z.add_0_r.
    destruct (Z.leb_spec (ex + k) (1024 - 53));
      [right | left; split; [reflexivity | lia]].
    eexists _, _. split; [reflexivity|]. split; [lia|].
    left. repeat split; lia.
Qed.

Lemma binary_round_aux_exact (m : positive) (ex : Z) :
  Zpos (digits2_pos m) = 53 -> -1074 <= ex ->
  binary_round_aux 53 1024 false (Zpos m) ex loc_Exact =
    if ex <=? 971 then S754_finite false m ex else S754_infinity false.
Proof.
  intros Hd Hex.
  assert (Hs : shr_fexp 53 1024 (Zpos m) ex loc_Exact
               = (Build_shr_record (Zpos m) false false, ex)).
  { unfold shr_fexp, fexp, emin. cbn [Zdigits2]. rewrite Hd.
    replace (Z.max (53 + ex - 53) (3 - 1024 - 53) - ex) with 0 by lia.
    reflexivity. }
  unfold binary_round_aux. rewrite Hs. cbn [shr_m loc_of_shr_record round_nearest_even].
  rewrite Hs. cbn [shr_m]. reflexivity.
Qed.

Lemma float64_of_int_shape (p : positive) :
  (Go.float64_of_int (Zpos p) = S754_infinity false /\ 2 ^ 1023 <= Zpos p) \/
  exists mx ex,
    Go.float64_of_int (Zpos p) = S754_finite false mx ex /\
    2 ^ 52 <= Zpos mx < 2 ^ 53 /\
    ((-52 <= ex <= 0 /\ Zpos mx = Zpos p * 2 ^ (- ex)) \/
     (0 < ex /\ Zpos p < (Zpos mx + 1) * 2 ^ ex /\
      Zpos mx * 2 ^ ex <= 2 * Zpos p)).
Proof.
  unfold Go.float64_of_int, Go.prec, Go.emax, binary_normalize, binary_round.
  pose proof (digits2_pos_bounds p) as B.
  set (dp := Zpos (digits2_pos p)) in *.
  assert (Hdp : 1 <= dp) by (subst dp; lia).
  replace (fexp 53 1024 (dp + 0)) with (dp - 53) by (unfold fexp, emin; lia).
  unfold shl_align.
  destruct (dp - 53 - 0) as [|s|s] eqn:Es.
  - (* exactly 53 digits *)
    rewrite binary_round_aux_exact by (fold dp; lia). cbn [Z.leb Z.compare].
    right. exists p, 0. split; [reflexivity|].
    replace dp with 53 in B by lia. change (53 - 1) with 52 in B.
    split; [exact B|]. left. cbn. lia.
  - (* more than 53 digits: rounding *)
    destruct (binary_round_aux_shape p 0)
      as [Hq [[Hinf Hbig] | (m' & e' & Hr & He & Hc)]]; fold dp; try lia.
    { left. split; [exact Hinf|]. fold dp in Hbig.
      assert (2 ^ 1023 <= 2 ^ (dp - 1)) by (apply Z.pow_le_mono_r; lia). lia. }
    fold dp in Hq, Hc. right. exists m', e'. split; [exact Hr|].
    assert (Hk : 0 < dp - 53) by lia.
    set (k := dp - 53) in *.
    assert (Hp2 : 0 < 2 ^ k) by (apply Z.pow_pos_nonneg; lia).
    assert (Hlt : Zpos p / 2 ^ k * 2 ^ k <= Zpos p
                  < (Zpos p / 2 ^ k + 1) * 2 ^ k).
    { pose proof (Z.div_mod (Zpos p) (2 ^ k) ltac:(lia)).
      pose proof (Z.mod_pos_bound (Zpos p) (2 ^ k) Hp2). lia. }
    destruct Hc as [(-> & Hm & Hm') | (-> & Hm & Htop)].
    + split; [lia|]. right. split; [lia|]. rewrite Z.add_0_l. split; nia.
    + split; [rewrite Hm; cbn; lia|]. right. split; [lia|].
      rewrite Z.add_0_l, Z.pow_add_r by lia. rewrite Htop in Hlt.
      rewrite Hm. change (2 ^ 53) with (2 * 2 ^ 52) in Hlt, Htop.
      change (2 ^ 1) with 2. split; nia.
  - (* fewer than 53 digits: aligned to the left, exact *)
    assert (Hs : Zpos s = 53 - dp) by lia.
    pose proof (iter_xO s p) as Hmz. set (mz := Pos.iter xO p s) in *.
    assert (Bz : 2 ^ 52 <= Zpos mz < 2 ^ 53).
    { rewrite Hmz, Hs. destruct B as [Bl Bu]. split.
      - replace 52 with ((dp - 1) + (53 - dp)) by lia.
        rewrite Z.pow_add_r by lia. apply Z.mul_le_mono_nonneg_r; [|exact Bl].
        apply Z.pow_nonneg; lia.
      - replace 53 with (dp + (53 - dp)) at 2 by lia.
        rewrite Z.pow_add_r by lia. apply Z.mul_lt_mono_pos_r; [|exact Bu].
        apply Z.pow_pos_nonneg; lia. }
    rewrite binary_round_aux_exact
      by (try apply digits2_pos_unique; change (53 - 1) with 52; lia).
    destruct (Z.leb_spec (dp - 53) 971); [|lia].
    right. exists mz, (dp - 53). split; [reflexivity|]. split; [exact Bz|].
    left. split; [lia|]. rewrite Hmz, Hs. f_equal. f_equal. lia.
Qed.

(** A binary64 above [1] is the positive infinity or a normal number
    [mr * 2^er] with a 53-digit mantissa, at least [1 + 2^-52]. *)
Lemma above_one_shape (rate : Go.float64) :
  is_float64 rate -> above_one rate ->
  rate = S754_infinity false \/
  exists mr er,
    rate = S754_finite false mr er /\
    2 ^ 52 <= Zpos mr < 2 ^ 53 /\ -52 <= er /\
    (er = -52 -> 2 ^ 52 < Zpos mr).
Proof.
  unfold is_float64, above_one, SFltb, f_one.
  destruct rate as [s|s| |s mr er]; cbn [SFcompare valid_binary];
    try discriminate.
  - destruct s; [discriminate | now left].
  - intros Hv Hlt. destruct s; [discriminate|]. right. exists mr, er.
    split; [reflexivity|].
    assert (Her : -52 <= er /\ (er = -52 -> 2 ^ 52 < Zpos mr)).
    { destruct (Z.compare_spec (-52) er) as [<-|Hl|Hg]; try discriminate.
      - split; [lia|]. intros _.
        change (Pos.compare_cont Eq 4503599627370496 mr)
          with (Pos.compare 4503599627370496 mr) in Hlt.
        destruct (Pos.compare_spec 4503599627370496 mr) as [E|L|G];
          try discriminate.
        change (2 ^ 52) with (Zpos 4503599627370496). lia.
      - split; lia. }
    split; [|exact Her].
    unfold bounded, canonical_mantissa, fexp, emin, Go.prec, Go.emax in Hv.
    apply andb_prop in Hv. destruct Hv as [Hc _].
    apply Z.eqb_eq in Hc.
    pose proof (digits2_pos_bounds mr) as B.
    replace (Zpos (digits2_pos mr)) with 53 in B by lia. exact B.
Qed.

Lemma pow2_ge_2 n : 1 <= n -> 2 <= 2 ^ n.
Proof.
  intros H. change 2 with (2 ^ 1) at 1. apply Z.pow_le_mono_r; lia.
Qed.

(** The product of a normal float [mx * 2^ex] with a rate above [1] is, when
    finite, at least the next float above [mx * 2^ex]. *)
Lemma fmul_above_one_shape (mx mr : positive) (ex er : Z) :
  2 ^ 52 <= Zpos mx < 2 ^ 53 -> 2 ^ 52 <= Zpos mr < 2 ^ 53 ->
  -52 <= ex -> -52 <= er -> (er = -52 -> 2 ^ 52 < Zpos mr) ->
  (Go.fmul (S754_finite false mx ex) (S754_finite false mr er)
     = S754_infinity false /\ 918 <= ex + er) \/
  exists m' J,
    Go.fmul (S754_finite false mx ex) (S754_finite false mr er)
      = S754_finite false m' (ex + J) /\
    0 <= J /\ Zpos mx + 1 <= Zpos m' * 2 ^ J /\
    52 <= J - er /\ Zpos m' * 2 ^ (J - er) <= 2 * (Zpos mx * Zpos mr).
Proof.
  intros Bx Br Hex Her Hone.
  unfold Go.fmul, Go.prec, Go.emax, SFmul. cbn [xorb].
  set (M := (mx * mr)%positive).
  assert (HM : Zpos M = Zpos mx * Zpos mr) by apply Pos2Z.inj_mul.
  assert (BM : 2 ^ 104 <= Zpos M < 2 ^ 106).
  { rewrite HM. change (2 ^ 104) with (2 ^ 52 * 2 ^ 52).
    change (2 ^ 106) with (2 ^ 53 * 2 ^ 53). nia. }
  pose proof (digits2_pos_bounds M) as BD.
  set (dg := Zpos (digits2_pos M)) in *.
  assert (Hdg : dg = 105 \/ dg = 106).
  { destruct (Z.le_gt_cases dg 104) as [Hs|Hs].
    - assert (2 ^ dg <= 2 ^ 104) by (apply Z.pow_le_mono_r; lia). lia.
    - destruct (Z.le_gt_cases 107 dg) as [Hb|Hb]; [|lia].
      assert (2 ^ 106 <= 2 ^ (dg - 1)) by (apply Z.pow_le_mono_r; lia). lia. }
  destruct (binary_round_aux_shape M (ex + er))
    as [Hq [[Hinf Hbig] | (m' & e' & Hr & He & Hc)]]; fold dg; try lia;
    [left; split; [exact Hinf | fold dg in Hbig; lia]|].
  fold dg in Hq, Hc. right.
  set (k := dg - 53) in *. set (q := Zpos M / 2 ^ k) in *.
  assert (Hj : 0 <= er + k) by lia.
  assert (Hgrow : Zpos mx + 1 <= q * 2 ^ (er + k)).
  { destruct (Z.eq_dec (er + k) 0) as [E0|N0].
    - rewrite E0, Z.pow_0_r, Z.mul_1_r.
      assert (Hk : k = 52) by lia. assert (Her' : er = -52) by lia.
      specialize (Hone Her'). unfold q. rewrite Hk.
      apply Z.div_le_lower_bound; [reflexivity|].
      rewrite HM. nia.
    - pose proof (pow2_ge_2 (er + k) ltac:(lia)).
      change (2 ^ 53) with (2 * 2 ^ 52) in Bx. nia. }
  assert (Hk0 : 0 < 2 ^ k) by (apply Z.pow_pos_nonneg; lia).
  assert (Hqk : q * 2 ^ k <= Zpos M)
    by (unfold q; rewrite Z.mul_comm; apply Z.mul_div_le; exact Hk0).
  assert (Hp : 0 < 2 ^ (er + k)) by (apply Z.pow_pos_nonneg; lia).
  destruct Hc as [(-> & Hm & _) | (-> & Hm & Htop)].
  - exists m', (er + k). split; [rewrite Hr; f_equal; lia|].
    split; [exact Hj|]. split; [nia|]. split; [lia|].
    replace (er + k - er) with k by lia. rewrite <- HM. nia.
  - exists m', (er + k + 1). split; [rewrite Hr; f_equal; lia|].
    split; [lia|].
    change (2 ^ 53) with (2 * 2 ^ 52) in Htop.
    split; [rewrite Z.pow_add_r by lia; change (2 ^ 1) with 2; rewrite Hm; nia|].
    split; [lia|].
    replace (er + k + 1 - er) with (k + 1) by lia.
    rewrite Z.pow_add_r by lia. change (2 ^ 1) with 2.
    rewrite <- HM, Hm. nia.
Qed.

(** The integral part of [m' * 2^(ex + J)] is at least [d] when
    [m' * 2^J] is above the mantissa [mx] of [float64(d)]. *)
Lemma shiftl_ge (d mx m' ex J : Z) :
  0 <= J -> 0 < m' -> mx + 1 <= m' * 2 ^ J ->
  (-52 <= ex <= 0 /\ mx = d * 2 ^ (- ex)) \/
  (0 < ex /\ d < (mx + 1) * 2 ^ ex) ->
  d <= Z.shiftl m' (ex + J).
Proof.
  intros HJ Hm Hle [[Hex Hmx] | [Hex Hd]].
  - destruct (Z.le_gt_cases 0 (ex + J)) as [Hp|Hn].
    + rewrite Z.shiftl_mul_pow2 by assumption.
      assert (E : 2 ^ J = 2 ^ (ex + J) * 2 ^ (- ex))
        by (rewrite <- Z.pow_add_r by lia; f_equal; lia).
      assert (0 < 2 ^ (- ex)) by (apply Z.pow_pos_nonneg; lia).
      rewrite E in Hle. nia.
    + rewrite Z.shiftl_div_pow2 by lia.
      assert (E : 2 ^ (- ex) = 2 ^ (- (ex + J)) * 2 ^ J)
        by (rewrite <- Z.pow_add_r by lia; f_equal; lia).
      assert (0 < 2 ^ J) by (apply Z.pow_pos_nonneg; lia).
      assert (0 < 2 ^ (- (ex + J))) by (apply Z.pow_pos_nonneg; lia).
      apply Z.div_le_lower_bound; [assumption|].
      rewrite Hmx, E in Hle. nia.
  - rewrite Z.shiftl_mul_pow2 by lia.
    rewrite Z.pow_add_r by lia.
    assert (0 < 2 ^ ex) by (apply Z.pow_pos_nonneg; lia). nia.
Qed.

(** Growth by a rate above [1] does not shrink a delay: when the product
    converts to [int64] at all, [time.Duration(float64(d) * rate)] is at
    least [d]. *)
Lemma scaled_ge (oor : Go.float64 -> Z) (d : Z) (rate : Go.float64) :
  0 <= d -> is_float64 rate -> above_one rate ->
  Go.fits_int64 (Go.fmul (Go.float64_of_int d) rate) = true ->
  d <= scaled oor d rate.
Proof.
  intros Hd Hv Hone.
  destruct (above_one_shape rate Hv Hone)
    as [-> | (mr & er & -> & Br & Her & Hmr)].
  - (* an infinite rate never fits *)
    destruct d as [|p|p]; [discriminate | | lia].
    destruct (float64_of_int_shape p) as [[-> _] | (mx & ex & -> & _)];
      discriminate.
  - destruct d as [|p|p]; [intros _; reflexivity | | lia].
    destruct (float64_of_int_shape p) as [[E _] | (mx & ex & E & Bx & Hx)];
      unfold scaled; rewrite E; [discriminate|].
    assert (Hex : -52 <= ex) by lia.
    destruct (fmul_above_one_shape mx mr ex er Bx Br Hex Her Hmr)
      as [[-> _] | (m' & J & -> & HJ & Hle & _)]; [discriminate|].
    unfold Go.fits_int64, Go.int64_of_float, Go.ftrunc. cbn [cond_Zopp].
    intros ->. apply (shiftl_ge (Zpos p) (Zpos mx)); auto; lia.
Qed.

(** The integral part of a product that stays below [2^63]. *)
Lemma shiftl_fits (d c R mx mr m' ex er J : Z) :
  0 < d < c -> 0 < m' -> 0 < mx -> 0 < mr ->
  R = mr * 2 ^ (er + 52) -> 4 * c * R <= 2 ^ 115 ->
  -52 <= er -> 0 <= J -> 52 <= J - er ->
  m' * 2 ^ (J - er) <= 2 * (mx * mr) ->
  mx < 2 ^ 53 -> mr < 2 ^ 53 ->
  (-52 <= ex <= 0 /\ mx = d * 2 ^ (- ex)) \/
  (0 < ex /\ mx * 2 ^ ex <= 2 * d) ->
  0 <= Z.shiftl m' (ex + J) < 2 ^ 63.
Proof.
  intros Hd Hm Hmx Hmr HR Hb Her HJ HK Hup Bx Br Hx.
  set (K := J - er) in *. set (P := 2 ^ (er + 52)) in *.
  assert (HP : 0 < P) by (apply Z.pow_pos_nonneg; lia).
  assert (H2K : 0 < 2 ^ K) by (apply Z.pow_pos_nonneg; lia).
  assert (HR0 : 0 < R) by nia.
  destruct (Z.le_gt_cases 0 (ex + J)) as [Hp|Hn].
  - rewrite Z.shiftl_mul_pow2 by assumption.
    set (T := m' * 2 ^ (ex + J)).
    assert (HT0 : 0 <= T) by (apply Z.mul_nonneg_nonneg; [lia|apply Z.pow_nonneg; lia]).
    split; [exact HT0|].
    assert (Hgoal : T * 2 ^ 52 < 2 ^ 115);
      [|change (2 ^ 115) with (2 ^ 63 * 2 ^ 52) in Hgoal; lia].
    destruct Hx as [[Hex Hmxd] | [Hex Hmxd]].
    + assert (E : 2 ^ (ex + J) * 2 ^ (- ex) * 2 ^ 52 = 2 ^ K * P).
      { unfold P, K. rewrite <- !Z.pow_add_r by lia. f_equal. lia. }
      assert (Hne : 0 < 2 ^ (- ex)) by (apply Z.pow_pos_nonneg; lia).
      assert (H1 : T * 2 ^ 52 * 2 ^ (- ex) <= 2 * d * R * 2 ^ (- ex)).
      { replace (T * 2 ^ 52 * 2 ^ (- ex))
          with (m' * (2 ^ (ex + J) * 2 ^ (- ex) * 2 ^ 52)) by (unfold T; ring).
        rewrite E. subst mx R.
        replace (m' * (2 ^ K * P)) with (m' * 2 ^ K * P) by ring.
        replace (2 * d * (mr * P) * 2 ^ (- ex))
          with (2 * (d * 2 ^ (- ex) * mr) * P) by ring.
        apply Z.mul_le_mono_nonneg_r; lia. }
      assert (H2 : T * 2 ^ 52 <= 2 * d * R) by nia.
      nia.
    + assert (E : 2 ^ (ex + J) * 2 ^ 52 = 2 ^ ex * (2 ^ K * P)).
      { unfold P, K. rewrite <- !Z.pow_add_r by lia. f_equal. lia. }
      assert (H2e : 0 < 2 ^ ex) by (apply Z.pow_pos_nonneg; lia).
      assert (H1 : T * 2 ^ 52 <= 2 * (mx * 2 ^ ex) * R).
      { replace (T * 2 ^ 52) with (m' * (2 ^ (ex + J) * 2 ^ 52))
          by (unfold T; ring).
        rewrite E. subst R.
        replace (m' * (2 ^ ex * (2 ^ K * P))) with (m' * 2 ^ K * (2 ^ ex * P))
          by ring.
        replace (2 * (mx * 2 ^ ex) * (mr * P))
          with (2 * (mx * mr) * (2 ^ ex * P)) by ring.
        apply Z.mul_le_mono_nonneg_r; [|exact Hup].
        apply Z.mul_nonneg_nonneg; lia. }
      nia.
  - rewrite Z.shiftl_div_pow2 by lia.
    assert (Hq : 0 < 2 ^ (- (ex + J))) by (apply Z.pow_pos_nonneg; lia).
    split; [apply Z.div_pos; lia|].
    apply Z.div_lt_upper_bound; [exact Hq|].
    assert (Hk52 : 2 ^ 52 <= 2 ^ K) by (apply Z.pow_le_mono_r; lia).
    assert (Hm55 : m' * 2 ^ 52 <= 2 * (2 ^ 53 * 2 ^ 53)) by nia.
    change (2 ^ 53 * 2 ^ 53) with (2 ^ 54 * 2 ^ 52) in Hm55.
    assert (m' <= 2 ^ 55) by (change (2 ^ 55) with (2 * 2 ^ 54); nia).
    assert (2 ^ 55 < 2 ^ 63) by (apply Z.pow_lt_mono_r; lia).
    nia.
Qed.

(** [growth_bounded] is enough for [growth_fits]. *)
Lemma growth_bounded_fits (r : Retrier) :
  is_float64 (Rate r) -> above_one (Rate r) ->
  growth_bounded r -> growth_fits r.
Proof.
  intros Hv Hone Hb d [Hd0 HdC]. unfold growth_bounded in Hb.
  destruct (above_one_shape (Rate r) Hv Hone)
    as [E | (mr & er & E & Br & Her & Hmr)]; rewrite E in *; [contradiction|].
  set (P := 2 ^ (er + 52)) in *.
  assert (HP : 1 <= P)
    by (change 1 with (2 ^ 0); apply Z.pow_le_mono_r; lia).
  destruct d as [|p|p]; [reflexivity | | lia].
  assert (HC61 : Ceil r <= 2 ^ 61).
  { change (2 ^ 115) with (4 * 2 ^ 61 * 2 ^ 52) in Hb. nia. }
  destruct (float64_of_int_shape p) as [[_ Hbig] | (mx & ex & Ex & Bx & Hx)].
  { assert (2 ^ 61 < 2 ^ 1023) by (apply Z.pow_lt_mono_r; lia). lia. }
  rewrite Ex.
  assert (Hex : -52 <= ex) by lia.
  destruct (fmul_above_one_shape mx mr ex er Bx Br Hex Her Hmr)
    as [[_ Hbig] | (m' & J & -> & HJ & _ & HK & Hup)].
  - exfalso.
    assert (Hpow : 2 ^ 970 <= 2 ^ (ex + er + 52))
      by (apply Z.pow_le_mono_r; lia).
    destruct Hx as [[Hex' _] | (Hex' & _ & Hup')].
    + assert (2 ^ (ex + er + 52) <= P)
        by (unfold P; apply Z.pow_le_mono_r; lia).
      assert (2 ^ 115 < 2 ^ 970) by (apply Z.pow_lt_mono_r; lia).
      assert (H1 : P <= Zpos mr * P) by nia.
      assert (H2 : Zpos mr * P <= Ceil r * (Zpos mr * P)) by nia.
      lia.
    + assert (E2 : 2 ^ (ex + er + 52) = 2 ^ ex * P)
        by (unfold P; rewrite <- Z.pow_add_r by lia; f_equal; lia).
      assert (0 < 2 ^ ex) by (apply Z.pow_pos_nonneg; lia).
      assert (2 ^ 115 < 2 ^ 970) by (apply Z.pow_lt_mono_r; lia).
      assert (H1 : 2 ^ ex * P <= Zpos mx * 2 ^ ex * P) by nia.
      assert (H2 : Zpos mx * 2 ^ ex * P <= 2 * Zpos p * P)
        by (apply Z.mul_le_mono_nonneg_r; lia).
      assert (H3 : 2 * Zpos p * P <= 2 * Ceil r * P)
        by (apply Z.mul_le_mono_nonneg_r; lia).
      assert (H4 : 2 * Ceil r * P <= 2 * Ceil r * (Zpos mr * P)) by nia.
      lia.
  - unfold Go.fits_int64, Go.ftrunc. cbn [cond_Zopp].
    assert (Hs : 0 <= Z.shiftl (Zpos m') (ex + J) < 2 ^ 63).
    { apply (shiftl_fits (Zpos p) (Ceil r) (Zpos mr * P) (Zpos mx) (Zpos mr)
               (Zpos m') ex er J); try reflexivity; try lia. }
    unfold Go.in_int64b, Go.min_int64, Go.max_int64.
    apply andb_true_intro. split; apply Z.leb_le; lia.
Qed.

(** ** Successive delays without jitter *)

Section Climb.

Variable oor : Go.float64 -> Z.

Lemma grow_no_jitter r w :
  Go.feqb (Jitter r) Go.fzero = true ->
  Delay (grow oor r w) =
    Z.min (if Delay r <? Ceil r then scaled oor (Delay r) (Rate r) else Delay r)
          (Ceil r).
Proof.
  intros Hj. unfold grow, applyJitter.
  destruct (Delay r <? Ceil r); cbn; rewrite Hj; cbn;
    match goal with |- context [?a >? ?b] => destruct (Z.gtb_spec a b) end;
    cbn; lia.
Qed.

(** One growth step from a delay that is non-negative or at the ceiling. *)
Lemma grow_climbs r w :
  Go.feqb (Jitter r) Go.fzero = true ->
  is_float64 (Rate r) -> above_one (Rate r) -> growth_fits r ->
  0 <= Delay r \/ Ceil r <= Delay r ->
  Z.min (Delay r) (Ceil r) <= Delay (grow oor r w) <= Ceil r /\
  (Ceil r <= Delay r -> Delay (grow oor r w) = Ceil r).
Proof.
  intros Hj Hv Hone Hfit HD. rewrite grow_no_jitter by assumption.
  destruct (Z.ltb_spec (Delay r) (Ceil r)) as [Hlt|Hge]; [|lia].
  assert (H0 : 0 <= Delay r) by lia.
  pose proof (scaled_ge oor (Delay r) (Rate r) H0 Hv Hone
                (Hfit _ (conj H0 Hlt))). lia.
Qed.

(** The two [Wait]s differ in the budget check only; what follows holds of
    any [wait] that, without cancellation, either sleeps for the grown delay
    and stores it raised to the floor, or is out of budget for good. *)
Variable wait : Retrier -> World -> Outcome.
Variable spent : Retrier -> Prop.

Hypothesis wait_frame : forall r w,
  Floor (after (wait r w)) = Floor r /\ Ceil (after (wait r w)) = Ceil r /\
  Rate (after (wait r w)) = Rate r /\ Jitter (after (wait r w)) = Jitter r.

Hypothesis wait_quiet : forall r w, quiet w ->
  if ok (wait r w)
  then timer (wait r w) = Some (Delay (grow oor r w)) /\
       Delay (after (wait r w)) = Z.max (Delay (grow oor r w)) (Floor r)
  else spent (after (wait r w)).

Hypothesis spent_stays : forall r w,
  spent r -> ok (wait r w) = false /\ spent (after (wait r w)).

Lemma spent_no_delays ws : forall r,
  spent r -> delays (fst (run wait r (calls ws))) = [].
Proof.
  induction ws as [|w ws IH]; intros r Hs; [reflexivity|].
  cbn [calls map run]. change (map CallWait ws) with (calls ws).
  destruct (spent_stays r w Hs) as [Hok Hs']. specialize (IH _ Hs').
  destruct (run wait (after (wait r w)) (calls ws)) as [os r'].
  cbn in *. now rewrite Hok.
Qed.

Lemma climbs_cons c a l :
  climbs c l ->
  (forall b, hd_error l = Some b -> a <= b /\ (a = c -> b = c)) ->
  climbs c (a :: l).
Proof.
  destruct l as [|b l]; cbn; auto. intros Hc Hh.
  destruct (Hh b eq_refl). auto.
Qed.

Lemma run_climbs ws : forall r,
  Forall quiet ws ->
  Go.feqb (Jitter r) Go.fzero = true ->
  is_float64 (Rate r) -> above_one (Rate r) ->
  Floor r <= Ceil r -> growth_fits r ->
  0 <= Delay r \/ Ceil r <= Delay r ->
  let ds := delays (fst (run wait r (calls ws))) in
  climbs (Ceil r) ds /\
  (forall t, hd_error ds = Some t ->
     Z.min (Delay r) (Ceil r) <= t /\ (Ceil r <= Delay r -> t = Ceil r)).
Proof.
  induction ws as [|w ws IH]; intros r Hq Hj Hv Hone Hfc Hfit HD;
    [cbn; split; [trivial | discriminate]|].
  inversion Hq as [|? ? Hw Hq']; subst.
  cbn [calls map run]. change (map CallWait ws) with (calls ws).
  pose proof (wait_quiet r w Hw) as Hwq.
  destruct (wait_frame r w) as (Ff & Fc & Fr & Fj).
  destruct (grow_climbs r w Hj Hv Hone Hfit HD) as [[Gl Gu] Gc].
  destruct (ok (wait r w)) eqn:Hok.
  - destruct Hwq as [Ht Hd].
    assert (Hfit' : growth_fits (after (wait r w)))
      by (unfold growth_fits; rewrite Fc, Fr; exact Hfit).
    specialize (IH (after (wait r w)) Hq').
    rewrite Fj, Fr, Ff, Fc, Hd in IH.
    destruct IH as [Hc Hh]; auto; try lia.
    destruct (run wait (after (wait r w)) (calls ws)) as [os r'].
    cbn [fst delays] in *. rewrite Hok, Ht. split.
    + apply climbs_cons; [exact Hc|]. intros b Hb.
      destruct (Hh b Hb). lia.
    + intros t [= <-]. auto.
  - pose proof (spent_no_delays ws _ Hwq) as Hnil.
    destruct (run wait (after (wait r w)) (calls ws)) as [os r'].
    cbn [fst delays] in *. rewrite Hok, Hnil. cbn.
    split; [trivial | discriminate].
Qed.

End Climb.

Section ClimbInstances.

Variable oor : Go.float64 -> Z.

Lemma budget_go_attempts r r' :
  Attempts r' = Attempts r ->
  retrier_go.budget r = None -> retrier_go.budget r' = None.
Proof.
  unfold retrier_go.budget. intros ->.
  destruct (Attempts r >? 0); [|discriminate].
  now destruct (Attempts r =? 1).
Qed.

Lemma budget_001_attempts r r' :
  Attempts r' = Attempts r ->
  part_001.budget r = None -> part_001.budget r' = None.
Proof.
  unfold part_001.budget. intros ->.
  destruct (Attempts r >=? 0); [|discriminate].
  now destruct (Go.wrap64 (Attempts r - 1) <? 0).
Qed.

Lemma Wait_go_quiet r w :
  quiet w ->
  if ok (retrier_go.Wait oor r w)
  then timer (retrier_go.Wait oor r w) = Some (Delay (grow oor r w)) /\
       Delay (after (retrier_go.Wait oor r w))
         = Z.max (Delay (grow oor r w)) (Floor r)
  else retrier_go.budget (after (retrier_go.Wait oor r w)) = None.
Proof.
  intros [He Hr]. pose proof (Wait_go_stored_delay oor r w) as Hs.
  destruct (ok (retrier_go.Wait oor r w)) eqn:Hok.
  - split; [|exact Hs].
    destruct (Wait_go_true oor r w Hok) as (r4 & Hb & ->). cbn.
    apply budget_go_frame in Hb. now destruct Hb as (-> & _).
  - revert Hok. rewrite Wait_go_paths, He.
    destruct (retrier_go.budget (grow oor r w)) as [r4|] eqn:Hb;
      [now rewrite sleep_fired | auto].
Qed.

Lemma Wait_001_quiet r w :
  quiet w ->
  if ok (part_001.Wait oor r w)
  then timer (part_001.Wait oor r w) = Some (Delay (grow oor r w)) /\
       Delay (after (part_001.Wait oor r w))
         = Z.max (Delay (grow oor r w)) (Floor r)
  else part_001.budget (after (part_001.Wait oor r w)) = None.
Proof.
  intros [He Hr]. pose proof (Wait_001_stored_delay oor r w) as Hs.
  destruct (ok (part_001.Wait oor r w)) eqn:Hok.
  - split; [|exact Hs].
    destruct (Wait_001_true oor r w Hok) as (r4 & Hb & ->). cbn.
    apply budget_001_frame in Hb. now destruct Hb as (-> & _).
  - revert Hok. rewrite Wait_001_paths, He.
    destruct (part_001.budget (grow oor r w)) as [r4|] eqn:Hb;
      [now rewrite sleep_fired | auto].
Qed.

Lemma spent_go_stays r w :
  retrier_go.budget r = None ->
  ok (retrier_go.Wait oor r w) = false /\
  retrier_go.budget (after (retrier_go.Wait oor r w)) = None.
Proof.
  intros Hb. rewrite Wait_go_paths. destruct (done_at_entry w); [auto|].
  destruct (grow_frame oor r w) as (Ha & _).
  rewrite (budget_go_attempts r (grow oor r w) Ha Hb). cbn.
  split; [reflexivity|]. exact (budget_go_attempts r _ Ha Hb).
Qed.

Lemma spent_001_stays r w :
  part_001.budget r = None ->
  ok (part_001.Wait oor r w) = false /\
  part_001.budget (after (part_001.Wait oor r w)) = None.
Proof.
  intros Hb. rewrite Wait_001_paths. destruct (done_at_entry w); [auto|].
  destruct (grow_frame oor r w) as (Ha & _).
  rewrite (budget_001_attempts r (grow oor r w) Ha Hb). cbn.
  split; [reflexivity|]. exact (budget_001_attempts r _ Ha Hb).
Qed.

End ClimbInstances.

(** Monotone delays, where the law holds.  Jitter off, a binary64 rate above
    [1], [Floor <= Ceil], no cancellation, a start from a non-negative delay
    (a fresh or reset instance starts from [0]), and growth that never
    leaves [int64]: then the delays of the calls that return [true] never
    decrease, and once a delay equals the ceiling all later ones do, in both
    files and on every platform. *)
Theorem delays_climb_when_growth_fits
    (oor : Go.float64 -> Z) (r : Retrier) (ws : list World) :
  0 <= Delay r ->
  Go.feqb (Jitter r) Go.fzero = true ->
  is_float64 (Rate r) -> above_one (Rate r) ->
  Floor r <= Ceil r -> growth_fits r -> Forall quiet ws ->
  climbs (Ceil r) (delays (fst (run (retrier_go.Wait oor) r (calls ws)))) /\
  climbs (Ceil r) (delays (fst (run (part_001.Wait oor) r (calls ws)))).
Proof.
  intros H0 Hj Hv Hone Hfc Hfit Hq. split.
  - apply (run_climbs oor (retrier_go.Wait oor)
             (fun r => retrier_go.budget r = None)
             (Wait_go_frame oor) (Wait_go_quiet oor) (spent_go_stays oor));
      auto.
  - apply (run_climbs oor (part_001.Wait oor)
             (fun r => part_001.budget r = None)
             (Wait_001_frame oor) (Wait_001_quiet oor) (spent_001_stays oor));
      auto.
Qed.

Lemma delays_climb_when_growth_fits_witness :
  let r := setRate f_two (retrier_go.New 1 10) in
  let ws := repeat calm 6 in
  (Floor r <= Ceil r /\ above_one (Rate r) /\ growth_fits r) /\
  delays (fst (run (retrier_go.Wait Go.oor_amd64) r (calls ws)))
    = [0; 2; 4; 8; 10; 10] /\
  climbs (Ceil r) (delays (fst (run (retrier_go.Wait Go.oor_amd64) r (calls ws)))) /\
  climbs (Ceil r) (delays (fst (run (part_001.Wait Go.oor_amd64) r (calls ws)))).
Proof.
  intros r ws.
  assert (H0 : 0 <= Delay r) by (vm_compute; discriminate).
  assert (Hj : Go.feqb (Jitter r) Go.fzero = true) by reflexivity.
  assert (Hv : is_float64 (Rate r)) by reflexivity.
  assert (Hone : above_one (Rate r)) by reflexivity.
  assert (Hfc : Floor r <= Ceil r) by (vm_compute; discriminate).
  assert (Hfit : growth_fits r).
  { intros d Hd. cbn in Hd.
    assert (Hc : d = 0 \/ d = 1 \/ d = 2 \/ d = 3 \/ d = 4 \/ d = 5 \/
                 d = 6 \/ d = 7 \/ d = 8 \/ d = 9) by lia.
    repeat (destruct Hc as [-> | Hc]; [vm_compute; reflexivity|]).
    subst d. vm_compute. reflexivity. }
  assert (Hq : Forall quiet ws) by (repeat constructor).
  split; [repeat split; assumption|].
  split; [vm_compute; reflexivity|].
  exact (delays_climb_when_growth_fits Go.oor_amd64 r ws H0 Hj Hv Hone Hfc Hfit Hq).
Defined.

(** The same with the check on the parameters in place of [growth_fits]:
    it is enough that four times the ceiling times the rate is at most
    [2^63] nanoseconds. *)
Corollary delays_climb_when_growth_bounded
    (oor : Go.float64 -> Z) (r : Retrier) (ws : list World) :
  0 <= Delay r ->
  Go.feqb (Jitter r) Go.fzero = true ->
  is_float64 (Rate r) -> above_one (Rate r) ->
  Floor r <= Ceil r -> growth_bounded r -> Forall quiet ws ->
  climbs (Ceil r) (delays (fst (run (retrier_go.Wait oor) r (calls ws)))) /\
  climbs (Ceil r) (delays (fst (run (part_001.Wait oor) r (calls ws)))).
Proof.
  intros H0 Hj Hv Hone Hfc Hb Hq.
  apply delays_climb_when_growth_fits; auto using growth_bounded_fits.
Qed.

(** The default rate [math.Phi] with floor 1ms and ceiling 100ms meets the
    check, so the delays of a fresh instance climb, for any number of calls;
    the first twelve are listed. *)
Example delays_climb_with_default_rate (oor : Go.float64 -> Z) (n : nat) :
  let r := retrier_go.New Millisecond (100 * Millisecond) in
  let r' := part_001.New Millisecond (100 * Millisecond) [] in
  climbs (Ceil r) (delays (fst (run (retrier_go.Wait oor) r
                                  (calls (repeat calm n))))) /\
  climbs (Ceil r') (delays (fst (run (part_001.Wait oor) r'
                                   (calls (repeat calm n))))) /\
  delays (fst (run (retrier_go.Wait oor) r (calls (repeat calm 12))))
    = [0; 1618033; 2618032; 4236064; 6854095; 11090158; 17944252; 29034409;
       46978660; 76013068; 100000000; 100000000].
Proof.
  cbv zeta.
  assert (Hq : Forall quiet (repeat calm n)).
  { apply Forall_forall. intros w Hw. apply repeat_spec in Hw. subst w.
    split; reflexivity. }
  assert (Hb : growth_bounded (retrier_go.New Millisecond (100 * Millisecond)))
    by (vm_compute; discriminate).
  assert (Hb' : growth_bounded (part_001.New Millisecond (100 * Millisecond) []))
    by (vm_compute; discriminate).
  split; [|split].
  - apply (delays_climb_when_growth_bounded oor
             (retrier_go.New Millisecond (100 * Millisecond)));
      try assumption; try reflexivity; vm_compute; discriminate.
  - apply (delays_climb_when_growth_bounded oor
             (part_001.New Millisecond (100 * Millisecond) []));
      try assumption; try reflexivity; vm_compute; discriminate.
  - vm_compute. reflexivity.
Qed.

(** C4 at an input where the code leaves it.  Floor 1s, ceiling 1h, rate
    [1e10], jitter off, no cancellation.  The first call sleeps for 0 and
    stores the floor.  From then on growth computes [1e9 * 1e10 = 1e19],
    which no [int64] holds; the language leaves the converted value to the
    implementation, and on amd64 it is [-2^63].  That is not above the
    ceiling, so the timer is started with it and fires at once: the delays
    run [0, -2^63, -2^63], downwards, and the ceiling is never reached.
    The preconditions of the claim hold. *)
Theorem growth_overflow_breaks_the_climb :
  let r := setRate f_1e10 (retrier_go.New Second Hour) in
  let r' := part_001.New Second Hour [part_001.Opt.Rate f_1e10] in
  let ws := repeat calm 3 in
  (Floor r <= Ceil r /\ is_float64 (Rate r) /\ above_one (Rate r) /\
   Go.feqb (Jitter r) Go.fzero = true /\ Forall quiet ws) /\
  Go.float64_of_int 10000000000 = f_1e10 /\
  Go.ftrunc (Go.fmul (Go.float64_of_int Second) f_1e10)
    = Some 10000000000000000000 /\
  delays (fst (run (retrier_go.Wait Go.oor_amd64) r (calls ws)))
    = [0; Go.min_int64; Go.min_int64] /\
  delays (fst (run (part_001.Wait Go.oor_amd64) r' (calls ws)))
    = [0; Go.min_int64; Go.min_int64] /\
  ~ climbs (Ceil r) (delays (fst (run (retrier_go.Wait Go.oor_amd64) r (calls ws)))) /\
  ~ climbs (Ceil r') (delays (fst (run (part_001.Wait Go.oor_amd64) r' (calls ws)))).
Proof.
  cbv zeta.
  assert (E : delays (fst (run (retrier_go.Wait Go.oor_amd64)
                (setRate f_1e10 (retrier_go.New Second Hour))
                (calls (repeat calm 3)))) = [0; Go.min_int64; Go.min_int64])
    by (vm_compute; reflexivity).
  assert (E' : delays (fst (run (part_001.Wait Go.oor_amd64)
                (part_001.New Second Hour [part_001.Opt.Rate f_1e10])
                (calls (repeat calm 3)))) = [0; Go.min_int64; Go.min_int64])
    by (vm_compute; reflexivity).
  rewrite E, E'.
  split.
  { split; [vm_compute; discriminate|].
    split; [vm_compute; reflexivity|]. split; [vm_compute; reflexivity|].
    split; [vm_compute; reflexivity|]. repeat constructor. }
  split; [vm_compute; reflexivity|].
  split; [vm_compute; reflexivity|].
  split; [reflexivity|]. split; [reflexivity|].
  split; cbn; unfold Go.min_int64; intros [H _]; revert H;
    vm_compute; intros H; apply H; reflexivity.
Qed.

(** * Further properties of the code *)

(** ** The options of [part_001.New] *)


Lemma options_last (os : list OptName) : forall r,
  let r' := fold_left (fun r setOpt => setOpt r) (map option_of os) r in
  Attempts r' = or_default (last_attempts os) (Attempts r) /\
  Rate r' = or_default (last_rate os) (Rate r) /\
  Jitter r' = or_default (last_jitter os) (Jitter r).
Proof.
  induction os as [|o os IH]; intros r; cbn; [auto|].
  destruct (IH (option_of o r)) as (Ha & Hr & Hj).
  rewrite Ha, Hr, Hj.
  destruct (last_attempts os), (last_rate os), (last_jitter os), o; cbn; auto.
Qed.


(** X2. Options are applied in order, so for each of budget, rate and
    jitter the last option of that kind decides, independently of the
    options of the other kinds; without one the field keeps the default:
    [-1] (unlimited), [math.Phi], [0]. *)
Theorem New_last_option_decides
    (floor ceil : Duration) (os : list OptName) :
  let r := part_001.New floor ceil (map option_of os) in
  Attempts r = or_default (last_attempts os) (-1) /\
  Rate r = or_default (last_rate os) Go.Phi /\
  Jitter r = or_default (last_jitter os) Go.fzero.
Proof.
  cbv zeta. unfold part_001.New.
  exact (options_last os (mkRetrier (-1) 0 floor ceil Go.Phi Go.fzero)).
Qed.

(** ** When [Wait] returns [true] *)

Section Verdict.

Variable oor : Go.float64 -> Z.




End Verdict.



(** ** Timers *)

Section Timers.

Variable oor : Go.float64 -> Z.

Lemma timer_go r w d :
  timer (retrier_go.Wait oor r w) = Some d -> d = Delay (grow oor r w).
Proof.
  rewrite Wait_go_paths. destruct (done_at_entry w); [discriminate|].
  destruct (retrier_go.budget (grow oor r w)) as [r4|] eqn:Hb; [|discriminate].
  apply budget_go_frame in Hb. destruct Hb as (<- & _).
  unfold sleep. destruct (race w); now intros [= <-].
Qed.

Lemma timer_001 r w d :
  timer (part_001.Wait oor r w) = Some d -> d = Delay (grow oor r w).
Proof.
  rewrite Wait_001_paths. destruct (done_at_entry w); [discriminate|].
  destruct (part_001.budget (grow oor r w)) as [r4|] eqn:Hb; [|discriminate].
  apply budget_001_frame in Hb. destruct Hb as (<- & _).
  unfold sleep. destruct (race w); now intros [= <-].
Qed.

(** Growth and jitter leave a zero delay at zero when rate, jitter and
    sample are finite; the clamp then gives [min 0 Ceil]. *)
Lemma scaled_zero rate : is_finite rate = true -> scaled oor 0 rate = 0.
Proof. destruct rate as [s|s| |s m e]; try discriminate; reflexivity. Qed.

Lemma applyJitter_zero j smp :
  is_finite j = true -> is_finite smp = true -> applyJitter oor 0 j smp = 0.
Proof.
  destruct j as [sj|sj| |sj mj ej]; try discriminate; intros _;
    [reflexivity|].
  destruct smp as [ss|ss| |ss ms es]; try discriminate; intros _;
    destruct sj, ss; reflexivity.
Qed.

Lemma grow_from_zero r w :
  Delay r = 0 ->
  is_finite (Rate r) = true -> is_finite (Jitter r) = true ->
  is_finite (norm w) = true ->
  Delay (grow oor r w) = Z.min 0 (Ceil r).
Proof.
  intros Hd Hr Hj Hn. unfold grow. rewrite Hd.
  destruct (Z.ltb_spec 0 (Ceil r)); cbn [Delay setDelay Jitter Ceil].
  - rewrite scaled_zero, applyJitter_zero by assumption.
    destruct (Z.gtb_spec 0 (Ceil r)); cbn; lia.
  - rewrite Hd, applyJitter_zero by assumption.
    destruct (Z.gtb_spec 0 (Ceil r)); cbn; lia.
Qed.

End Timers.

(** X4. [Wait] never starts a timer longer than the ceiling: whatever the
    state, the jitter, the sample and the platform, the argument of
    [time.After] is at most [Ceil], in both files. *)
Theorem timer_at_most_Ceil
    (oor : Go.float64 -> Z) (r : Retrier) (w : World) (d : Duration) :
  (timer (retrier_go.Wait oor r w) = Some d -> d <= Ceil r) /\
  (timer (part_001.Wait oor r w) = Some d -> d <= Ceil r).
Proof.
  pose proof (grow_le_Ceil oor r w).
  split; intros Ht; [apply timer_go in Ht | apply timer_001 in Ht]; lia.
Qed.

Lemma timer_at_most_Ceil_witness :
  let r := setJitter f_half (setDelay (80 * Millisecond)
             (retrier_go.New Millisecond (100 * Millisecond))) in
  let w := mkWorld false f_1e10 TimerFired in
  timer (retrier_go.Wait Go.oor_amd64 r w) = Some (100 * Millisecond) /\
  100 * Millisecond <= Ceil r.
Proof.
  intros r w.
  assert (Ht : timer (retrier_go.Wait Go.oor_amd64 r w)
               = Some (100 * Millisecond)) by (vm_compute; reflexivity).
  split; [exact Ht|].
  exact (proj1 (timer_at_most_Ceil Go.oor_amd64 r w (100 * Millisecond)) Ht).
Defined.

(** X5. "The first call to Wait will return immediately": on a zero delay
    (a fresh or reset instance) with a finite rate, a finite jitter and a
    finite sample, the timer, when one is started, is set to [min 0 Ceil],
    never to a positive time, jitter on or off; a call that returns [true]
    then stores [max (min 0 Ceil) Floor]. *)
Theorem first_wait_is_immediate
    (oor : Go.float64 -> Z) (r : Retrier) (w : World) (d : Duration) :
  Delay r = 0 ->
  is_finite (Rate r) = true -> is_finite (Jitter r) = true ->
  is_finite (norm w) = true ->
  (timer (retrier_go.Wait oor r w) = Some d -> d = Z.min 0 (Ceil r)) /\
  (timer (part_001.Wait oor r w) = Some d -> d = Z.min 0 (Ceil r)) /\
  (ok (retrier_go.Wait oor r w) = true ->
     Delay (after (retrier_go.Wait oor r w))
       = Z.max (Z.min 0 (Ceil r)) (Floor r)) /\
  (ok (part_001.Wait oor r w) = true ->
     Delay (after (part_001.Wait oor r w))
       = Z.max (Z.min 0 (Ceil r)) (Floor r)).
Proof.
  intros Hd Hr Hj Hn.
  pose proof (grow_from_zero oor r w Hd Hr Hj Hn) as Hg.
  split; [|split; [|split]].
  - intros Ht. apply timer_go in Ht. congruence.
  - intros Ht. apply timer_001 in Ht. congruence.
  - intros Hok. rewrite Wait_go_stored_delay, Hok, Hg. reflexivity.
  - intros Hok. rewrite Wait_001_stored_delay, Hok, Hg. reflexivity.
Qed.

Lemma first_wait_is_immediate_witness :
  let r := part_001.New Millisecond (100 * Millisecond)
             [part_001.Opt.Jitter f_half] in
  let w := mkWorld false f_minus_three TimerFired in
  (Delay r = 0 /\ is_finite (Rate r) = true /\ is_finite (Jitter r) = true) /\
  timer (retrier_go.Wait Go.oor_amd64 r w) = Some 0 /\
  timer (part_001.Wait Go.oor_amd64 r w) = Some 0 /\
  Delay (after (part_001.Wait Go.oor_amd64 r w)) = Millisecond.
Proof.
  intros r w.
  destruct (first_wait_is_immediate Go.oor_amd64 r w 0
              eq_refl eq_refl eq_refl eq_refl) as (_ & _ & _ & H4).
  split; [repeat split|]. split; [reflexivity|]. split; [reflexivity|].
  exact (H4 eq_refl).
Defined.

(** ** The budget along a sequence of calls *)

Lemma run_invariant_calls (wait : Retrier -> World -> Outcome)
    (P : World -> Prop) (I : Retrier -> Prop) (Q : Outcome -> Prop) :
  (forall r w, P w -> I r -> Q (wait r w) /\ I (after (wait r w))) ->
  (forall r, I r -> I (Reset r)) ->
  forall cs r,
    Forall (fun c => match c with CallWait w => P w | CallReset => True end) cs ->
    I r ->
    Forall Q (fst (run wait r cs)) /\ I (snd (run wait r cs)).
Proof.
  intros Hw Hr. induction cs as [|[w|] cs IH]; intros r HP Hi; cbn;
    inversion HP as [|? ? Hp HP']; subst.
  - split; [constructor | assumption].
  - destruct (Hw r w Hp Hi) as [Hq Hi'].
    specialize (IH _ HP' Hi'). destruct (run wait (after (wait r w)) cs) as [os r'].
    cbn in *. destruct IH. split; [constructor|]; assumption.
  - apply IH; [assumption | apply Hr, Hi].
Qed.

Section Accounting.

Variable oor : Go.float64 -> Z.

(** One call: a timer costs one attempt of a finite budget, and only a
    timer does. *)
Lemma Wait_go_cost r w :
  1 <= Attempts r -> Go.in_int64 (Attempts r) ->
  Attempts (after (retrier_go.Wait oor r w))
    = Attempts r - (match timer (retrier_go.Wait oor r w) with
                    | Some _ => 1 | None => 0 end) /\
  1 <= Attempts (after (retrier_go.Wait oor r w)) /\
  (ok (retrier_go.Wait oor r w) = true ->
   timer (retrier_go.Wait oor r w) <> None).
Proof.
  intros Hp Hi. rewrite Wait_go_paths.
  destruct (done_at_entry w); cbn; [repeat split; try lia; discriminate|].
  destruct (grow_frame oor r w) as (Ha & _).
  rewrite budget_go_spec by now rewrite Ha. rewrite Ha.
  destruct (Z.leb_spec (Attempts r) 0); [lia|].
  destruct (Z.eqb_spec (Attempts r) 1); cbn;
    [rewrite Ha; repeat split; try lia; discriminate|].
  unfold sleep. destruct (race w); cbn;
    try match goal with |- context [if ?c then _ else _] => destruct c end;
    cbn; repeat split; try lia; discriminate.
Qed.

Lemma Wait_001_cost r w :
  0 <= Attempts r -> Go.in_int64 (Attempts r) ->
  Attempts (after (part_001.Wait oor r w))
    = Attempts r - (match timer (part_001.Wait oor r w) with
                    | Some _ => 1 | None => 0 end) /\
  0 <= Attempts (after (part_001.Wait oor r w)) /\
  (ok (part_001.Wait oor r w) = true ->
   timer (part_001.Wait oor r w) <> None).
Proof.
  intros Hp Hi. rewrite Wait_001_paths.
  destruct (done_at_entry w); cbn; [repeat split; try lia; discriminate|].
  destruct (grow_frame oor r w) as (Ha & _).
  rewrite budget_001_spec by now rewrite Ha. rewrite Ha.
  destruct (Z.ltb_spec (Attempts r) 0); [lia|].
  destruct (Z.eqb_spec (Attempts r) 0); cbn;
    [rewrite Ha; repeat split; try lia; discriminate|].
  unfold sleep. destruct (race w); cbn;
    try match goal with |- context [if ?c then _ else _] => destruct c end;
    cbn; repeat split; try lia; discriminate.
Qed.

(** The same along a sequence, for any [wait] with such a cost and a budget
    that stays at [lo] or above. *)
Variable wait : Retrier -> World -> Outcome.
Variable lo : Z.

Hypothesis lo_in_int64 : Go.min_int64 <= lo.

Hypothesis wait_cost : forall r w,
  lo <= Attempts r -> Go.in_int64 (Attempts r) ->
  Attempts (after (wait r w))
    = Attempts r - (match timer (wait r w) with Some _ => 1 | None => 0 end) /\
  lo <= Attempts (after (wait r w)) /\
  (ok (wait r w) = true -> timer (wait r w) <> None).

Lemma run_cost cs : forall r,
  lo <= Attempts r -> Go.in_int64 (Attempts r) ->
  Z.of_nat (timers_started (fst (run wait r cs))) + Attempts (snd (run wait r cs))
    = Attempts r /\
  lo <= Attempts (snd (run wait r cs)) /\
  (proceeds (fst (run wait r cs)) <= timers_started (fst (run wait r cs)))%nat.
Proof.
  induction cs as [|[w|] cs IH]; intros r Hlo Hi.
  - cbn. repeat split; lia.
  - cbn [run]. destruct (wait_cost r w Hlo Hi) as (Hc & Hlo' & Hok).
    assert (Hi' : Go.in_int64 (Attempts (after (wait r w)))).
    { unfold Go.in_int64 in *. destruct (timer (wait r w)); lia. }
    specialize (IH _ Hlo' Hi').
    destruct (run wait (after (wait r w)) cs) as [os r'].
    unfold timers_started, proceeds in *. cbn [fst snd filter] in *.
    destruct IH as (E & L & Pr).
    destruct (timer (wait r w)) eqn:Ht, (ok (wait r w)) eqn:Ho;
      cbn [length]; repeat split; try lia.
    exfalso. now apply Hok.
  - cbn [run]. apply (IH (Reset r)); assumption.
Qed.

End Accounting.

(** X6. Every timer costs one attempt of a finite budget, and nothing else
    does: along any sequence of [Wait] and [Reset] calls, whatever the token
    does, the number of timers started plus the budget left is the budget
    at the start.  So at most [k - 1] calls ([src/retrier.go], which stops
    at [1]) or [k] calls ([part_001], which stops at [0]) return [true]. *)
Theorem timers_plus_budget_is_constant
    (oor : Go.float64 -> Z) (k : Z) (r r' : Retrier) (cs : list Call) :
  Go.in_int64 k -> 1 <= k -> Attempts r = k -> Attempts r' = k ->
  (let os := fst (run (retrier_go.Wait oor) r cs) in
   let r1 := snd (run (retrier_go.Wait oor) r cs) in
   Z.of_nat (timers_started os) + Attempts r1 = k /\
   Z.of_nat (proceeds os) <= k - 1) /\
  (let os := fst (run (part_001.Wait oor) r' cs) in
   let r1 := snd (run (part_001.Wait oor) r' cs) in
   Z.of_nat (timers_started os) + Attempts r1 = k /\
   Z.of_nat (proceeds os) <= k).
Proof.
  intros Hi Hk Ha Ha'. split; cbv zeta.
  - assert (Hlo : Go.min_int64 <= 1) by (vm_compute; discriminate).
    destruct (run_cost (retrier_go.Wait oor) 1 Hlo (Wait_go_cost oor) cs r)
      as (E & L & P); rewrite ?Ha; auto; lia.
  - assert (Hlo : Go.min_int64 <= 0) by (vm_compute; discriminate).
    destruct (run_cost (part_001.Wait oor) 0 Hlo (Wait_001_cost oor) cs r')
      as (E & L & P); rewrite ?Ha'; auto; lia.
Qed.

Lemma timers_plus_budget_is_constant_witness :
  let r := setAttempts 3 (retrier_go.New Millisecond (100 * Millisecond)) in
  let cs := [CallWait calm; CallWait (mkWorld false Go.fzero CtxDone);
             CallReset; CallWait (mkWorld true Go.fzero TimerFired);
             CallWait calm; CallWait calm] in
  (let os := fst (run (retrier_go.Wait Go.oor_amd64) r cs) in
   let r1 := snd (run (retrier_go.Wait Go.oor_amd64) r cs) in
   Z.of_nat (timers_started os) + Attempts r1 = 3 /\
   Z.of_nat (proceeds os) <= 3 - 1) /\
  (let os := fst (run (part_001.Wait Go.oor_amd64) r cs) in
   let r1 := snd (run (part_001.Wait Go.oor_amd64) r cs) in
   Z.of_nat (timers_started os) + Attempts r1 = 3 /\
   Z.of_nat (proceeds os) <= 3).
Proof.
  intros r cs.
  assert (Hi : Go.in_int64 3) by (vm_compute; split; discriminate).
  assert (Hk : 1 <= 3) by lia.
  exact (timers_plus_budget_is_constant Go.oor_amd64 3 r r cs Hi Hk
           eq_refl eq_refl).
Defined.

(** X7. A [Wait] that is cancelled during its sleep has already paid: with
    a finite budget that is not used up, a call that loses the second
    select to the token returns [false] and still leaves the budget one
    lower, and the stored delay is the grown one, not raised to the
    floor. *)
Theorem cancelled_sleep_costs_an_attempt
    (oor : Go.float64 -> Z) (r r' : Retrier) (w : World) :
  done_at_entry w = false -> race w = CtxDone ->
  Go.in_int64 (Attempts r) -> 1 < Attempts r ->
  Go.in_int64 (Attempts r') -> 0 < Attempts r' ->
  retrier_go.Wait oor r w
    = mkOutcome false (Some (Delay (grow oor r w)))
        (setAttempts (Attempts r - 1) (grow oor r w)) /\
  part_001.Wait oor r' w
    = mkOutcome false (Some (Delay (grow oor r' w)))
        (setAttempts (Attempts r' - 1) (grow oor r' w)).
Proof.
  intros He Hr Hi Hp Hi' Hp'. rewrite Wait_go_paths, Wait_001_paths, He.
  destruct (grow_frame oor r w) as (Ha & _).
  destruct (grow_frame oor r' w) as (Ha' & _).
  rewrite budget_go_spec, budget_001_spec by congruence. rewrite Ha, Ha'.
  destruct (Z.leb_spec (Attempts r) 0); [lia|].
  destruct (Z.eqb_spec (Attempts r) 1); [lia|].
  destruct (Z.ltb_spec (Attempts r') 0); [lia|].
  destruct (Z.eqb_spec (Attempts r') 0); [lia|].
  rewrite !sleep_cancelled by assumption. split; reflexivity.
Qed.

Lemma cancelled_sleep_costs_an_attempt_witness :
  let r := setAttempts 3 (setDelay Millisecond
             (retrier_go.New (5 * Millisecond) (100 * Millisecond))) in
  let w := mkWorld false Go.fzero CtxDone in
  retrier_go.Wait Go.oor_amd64 r w
    = mkOutcome false (Some 1618033) (setAttempts 2 (setDelay 1618033 r)) /\
  part_001.Wait Go.oor_amd64 r w
    = mkOutcome false (Some 1618033) (setAttempts 2 (setDelay 1618033 r)).
Proof.
  intros r w.
  assert (Hi : Go.in_int64 (Attempts r)) by (vm_compute; split; discriminate).
  assert (H1 : 1 < Attempts r) by reflexivity.
  assert (H0 : 0 < Attempts r) by reflexivity.
  exact (cancelled_sleep_costs_an_attempt Go.oor_amd64 r r w
           eq_refl eq_refl Hi H1 Hi H0).
Defined.

(** ** What no call changes, and what an unlimited budget allows *)

Section Params.

Variable oor : Go.float64 -> Z.

Lemma unlimited_go_step r w :
  Attempts r <= 0 ->
  Attempts (after (retrier_go.Wait oor r w)) = Attempts r /\
  (quiet w -> ok (retrier_go.Wait oor r w) = true).
Proof.
  intros Hu. rewrite Wait_go_paths.
  destruct (grow_frame oor r w) as (Ha & _).
  unfold retrier_go.budget. rewrite Ha.
  destruct (Z.gtb_spec (Attempts r) 0); [lia|].
  destruct (done_at_entry w) eqn:He.
  - split; [reflexivity | intros [? _]; congruence].
  - split.
    + unfold sleep. destruct (race w); cbn;
        try match goal with |- context [if ?c then _ else _] => destruct c end;
        cbn; assumption.
    + intros [_ Hr]. now rewrite sleep_fired.
Qed.

Lemma unlimited_001_step r w :
  Attempts r < 0 ->
  Attempts (after (part_001.Wait oor r w)) = Attempts r /\
  (quiet w -> ok (part_001.Wait oor r w) = true).
Proof.
  intros Hu. rewrite Wait_001_paths.
  destruct (grow_frame oor r w) as (Ha & _).
  unfold part_001.budget. rewrite Ha.
  destruct (Z.geb_spec (Attempts r) 0); [lia|].
  destruct (done_at_entry w) eqn:He.
  - split; [reflexivity | intros [? _]; congruence].
  - split.
    + unfold sleep. destruct (race w); cbn;
        try match goal with |- context [if ?c then _ else _] => destruct c end;
        cbn; assumption.
    + intros [_ Hr]. now rewrite sleep_fired.
Qed.

End Params.

(** X8. An unlimited budget is never used up and never written: with
    [Attempts <= 0] in [src/retrier.go] ([New] gives [0]) or [Attempts < 0]
    in [part_001] ([New] gives [-1]), along any sequence of [Wait] and
    [Reset] calls made while the token stays untriggered every [Wait]
    returns [true], and [Attempts] keeps its value. *)
Theorem unlimited_budget_never_refuses
    (oor : Go.float64 -> Z) (r r' : Retrier) (cs : list Call) :
  Attempts r <= 0 -> Attempts r' < 0 -> Forall quiet_call cs ->
  (Forall (fun o => ok o = true /\ Attempts (after o) = Attempts r)
          (fst (run (retrier_go.Wait oor) r cs)) /\
   Attempts (snd (run (retrier_go.Wait oor) r cs)) = Attempts r) /\
  (Forall (fun o => ok o = true /\ Attempts (after o) = Attempts r')
          (fst (run (part_001.Wait oor) r' cs)) /\
   Attempts (snd (run (part_001.Wait oor) r' cs)) = Attempts r').
Proof.
  intros Hu Hu' Hq. split.
  - apply (run_invariant_calls (retrier_go.Wait oor) quiet
             (fun x => Attempts x = Attempts r)
             (fun o => ok o = true /\ Attempts (after o) = Attempts r));
      auto.
    intros x w Hw Hx.
    destruct (unlimited_go_step oor x w) as [Ha Hok]; [lia|].
    rewrite Ha, Hx. auto.
  - apply (run_invariant_calls (part_001.Wait oor) quiet
             (fun x => Attempts x = Attempts r')
             (fun o => ok o = true /\ Attempts (after o) = Attempts r'));
      auto.
    intros x w Hw Hx.
    destruct (unlimited_001_step oor x w) as [Ha Hok]; [lia|].
    rewrite Ha, Hx. auto.
Qed.

Lemma unlimited_budget_never_refuses_witness :
  let r := retrier_go.New Millisecond (100 * Millisecond) in
  let r' := part_001.New Millisecond (100 * Millisecond) [] in
  let cs := [CallWait calm; CallWait calm; CallReset; CallWait calm] in
  (Attempts r <= 0 /\ Attempts r' < 0) /\
  (Forall (fun o => ok o = true /\ Attempts (after o) = Attempts r)
          (fst (run (retrier_go.Wait Go.oor_amd64) r cs)) /\
   Attempts (snd (run (retrier_go.Wait Go.oor_amd64) r cs)) = Attempts r) /\
  (Forall (fun o => ok o = true /\ Attempts (after o) = Attempts r')
          (fst (run (part_001.Wait Go.oor_amd64) r' cs)) /\
   Attempts (snd (run (part_001.Wait Go.oor_amd64) r' cs)) = Attempts r').
Proof.
  intros r r' cs.
  assert (Hu : Attempts r <= 0) by (vm_compute; discriminate).
  assert (Hu' : Attempts r' < 0) by reflexivity.
  assert (Hq : Forall quiet_call cs)
    by (repeat constructor).
  split; [split; assumption|].
  exact (unlimited_budget_never_refuses Go.oor_amd64 r r' cs Hu Hu' Hq).
Defined.

(** X9. No sequence of [Wait] and [Reset] calls changes floor, ceiling,
    rate or jitter: these fields are those of the construction after every
    call, in both files. *)
Theorem calls_keep_parameters
    (oor : Go.float64 -> Z) (r : Retrier) (cs : list Call) :
  let same x := Floor x = Floor r /\ Ceil x = Ceil r /\
                Rate x = Rate r /\ Jitter x = Jitter r in
  (Forall (fun o => same (after o)) (fst (run (retrier_go.Wait oor) r cs)) /\
   same (snd (run (retrier_go.Wait oor) r cs))) /\
  (Forall (fun o => same (after o)) (fst (run (part_001.Wait oor) r cs)) /\
   same (snd (run (part_001.Wait oor) r cs))).
Proof.
  cbv zeta. split.
  - apply (run_invariant (retrier_go.Wait oor)
             (fun x => Floor x = Floor r /\ Ceil x = Ceil r /\
                       Rate x = Rate r /\ Jitter x = Jitter r)
             (fun o => Floor (after o) = Floor r /\ Ceil (after o) = Ceil r /\
                       Rate (after o) = Rate r /\ Jitter (after o) = Jitter r));
      auto.
    intros x w (Hf & Hc & Hr & Hj).
    destruct (Wait_go_frame oor x w) as (Ff & Fc & Fr & Fj).
    rewrite Ff, Fc, Fr, Fj. auto.
  - apply (run_invariant (part_001.Wait oor)
             (fun x => Floor x = Floor r /\ Ceil x = Ceil r /\
                       Rate x = Rate r /\ Jitter x = Jitter r)
             (fun o => Floor (after o) = Floor r /\ Ceil (after o) = Ceil r /\
                       Rate (after o) = Rate r /\ Jitter (after o) = Jitter r));
      auto.
    intros x w (Hf & Hc & Hr & Hj).
    destruct (Wait_001_frame oor x w) as (Ff & Fc & Fr & Fj).
    rewrite Ff, Fc, Fr, Fj. auto.
Qed.

(** X10. With jitter off, a binary64 rate above [1], [0 <= Floor <= Ceil]
    and growth that stays within [int64], a call on a stored delay that is
    at least the floor (as it is after every call that returned [true])
    starts a timer between [Floor] and [Ceil]: from the second call on the
    sleep itself respects both bounds. *)
Theorem timer_within_bounds_without_jitter
    (oor : Go.float64 -> Z) (r : Retrier) (w : World) (d : Duration) :
  Go.feqb (Jitter r) Go.fzero = true ->
  is_float64 (Rate r) -> above_one (Rate r) -> growth_fits r ->
  0 <= Floor r -> Floor r <= Ceil r -> Floor r <= Delay r ->
  (timer (retrier_go.Wait oor r w) = Some d -> Floor r <= d <= Ceil r) /\
  (timer (part_001.Wait oor r w) = Some d -> Floor r <= d <= Ceil r).
Proof.
  intros Hj Hv Hone Hfit H0 Hfc Hfd.
  assert (Hg : Floor r <= Delay (grow oor r w) <= Ceil r).
  { destruct (grow_climbs oor r w Hj Hv Hone Hfit) as [[Gl Gu] _]; lia. }
  split; intros Ht; [apply timer_go in Ht | apply timer_001 in Ht];
    subst d; exact Hg.
Qed.

Lemma timer_within_bounds_without_jitter_witness :
  let r := setDelay 3 (setRate f_two (retrier_go.New 1 10)) in
  (growth_fits r /\ Floor r <= Delay r) /\
  timer (retrier_go.Wait Go.oor_amd64 r calm) = Some 6 /\
  Floor r <= 6 <= Ceil r.
Proof.
  intros r.
  assert (Hv : is_float64 (Rate r)) by reflexivity.
  assert (Hone : above_one (Rate r)) by reflexivity.
  assert (Hfit : growth_fits r).
  { intros d Hd. cbn in Hd.
    assert (Hc : d = 0 \/ d = 1 \/ d = 2 \/ d = 3 \/ d = 4 \/ d = 5 \/
                 d = 6 \/ d = 7 \/ d = 8 \/ d = 9) by lia.
    repeat (destruct Hc as [-> | Hc]; [vm_compute; reflexivity|]).
    subst d. vm_compute. reflexivity. }
  assert (H0 : 0 <= Floor r) by (vm_compute; discriminate).
  assert (Hfc : Floor r <= Ceil r) by (vm_compute; discriminate).
  assert (Hfd : Floor r <= Delay r) by (vm_compute; discriminate).
  assert (Ht : timer (retrier_go.Wait Go.oor_amd64 r calm) = Some 6)
    by (vm_compute; reflexivity).
  split; [split; assumption|]. split; [exact Ht|].
  exact (proj1 (timer_within_bounds_without_jitter Go.oor_amd64 r calm 6
                  eq_refl Hv Hone Hfit H0 Hfc Hfd) Ht).
Defined.

(** ** Rates that are powers of two *)

Lemma shr_1_exact mrs :
  0 <= shr_m mrs -> shr_r mrs = false -> shr_s mrs = false ->
  (2 | shr_m mrs) ->
  shr_r (shr_1 mrs) = false /\ shr_s (shr_1 mrs) = false.
Proof.
  destruct mrs as [m r s]. cbn [shr_m shr_r shr_s]. intros Hm -> -> [c Hc].
  destruct m as [|[p|p|]|p]; cbn; auto; lia.
Qed.

Lemma divide_pow2_split a b m :
  0 <= a -> 0 <= b -> (2 ^ (a + b) | m) ->
  (2 ^ a | m) /\ (2 ^ b | m / 2 ^ a).
Proof.
  intros Ha Hb [c Hc]. rewrite Z.pow_add_r in Hc by assumption.
  assert (0 < 2 ^ a) by (apply Z.pow_pos_nonneg; lia).
  split.
  - exists (c * 2 ^ b). lia.
  - exists c. subst m. replace (c * (2 ^ a * 2 ^ b)) with (c * 2 ^ b * 2 ^ a) by ring.
    now rewrite Z.div_mul by lia.
Qed.

Lemma iter_shr_1_exact p : forall mrs,
  0 <= shr_m mrs -> shr_r mrs = false -> shr_s mrs = false ->
  (2 ^ Zpos p | shr_m mrs) ->
  shr_r (iter_pos shr_1 p mrs) = false /\
  shr_s (iter_pos shr_1 p mrs) = false.
Proof.
  induction p as [p IH|p IH|]; intros mrs Hm Hr Hs Hd; cbn [iter_pos].
  - replace (Zpos p~1) with (1 + (Zpos p + Zpos p)) in Hd by lia.
    apply divide_pow2_split in Hd; try lia. destruct Hd as [D1 D2].
    change (2 ^ 1) with 2 in D1, D2.
    destruct (shr_1_exact mrs Hm Hr Hs D1) as [R1 S1].
    assert (M1 : shr_m (shr_1 mrs) = shr_m mrs / 2) by now apply shr_1_m.
    assert (P1 : 0 <= shr_m (shr_1 mrs)) by (rewrite M1; apply Z.div_pos; lia).
    rewrite <- M1 in D2. apply divide_pow2_split in D2; try lia.
    destruct D2 as [D2 D3].
    destruct (IH (shr_1 mrs) P1 R1 S1 D2) as [R2 S2].
    assert (M2 : shr_m (iter_pos shr_1 p (shr_1 mrs))
                 = shr_m (shr_1 mrs) / 2 ^ Zpos p) by now apply iter_shr_1_m.
    apply IH; auto; rewrite M2; [apply Z.div_pos; lia | exact D3].
  - replace (Zpos p~0) with (Zpos p + Zpos p) in Hd by lia.
    apply divide_pow2_split in Hd; try lia. destruct Hd as [D1 D2].
    destruct (IH mrs Hm Hr Hs D1) as [R1 S1].
    assert (M1 : shr_m (iter_pos shr_1 p mrs) = shr_m mrs / 2 ^ Zpos p)
      by now apply iter_shr_1_m.
    apply IH; auto; rewrite M1; [apply Z.div_pos; lia | exact D2].
  - apply shr_1_exact; auto.
Qed.

(** Rounding [q * 2^k] with a 53-digit [q] is exact. *)
Lemma binary_round_aux_exact_shift (m q : positive) (k ex : Z) :
  0 < k -> Zpos m = Zpos q * 2 ^ k -> 2 ^ 52 <= Zpos q < 2 ^ 53 ->
  -1074 <= ex + k <= 971 ->
  binary_round_aux 53 1024 false (Zpos m) ex loc_Exact
    = S754_finite false q (ex + k).
Proof.
  intros Hk Hm Bq He.
  assert (H2k : 0 < 2 ^ k) by (apply Z.pow_pos_nonneg; lia).
  assert (Hdg : Zpos (digits2_pos m) = 53 + k).
  { apply digits2_pos_unique. rewrite Hm.
    replace (53 + k - 1) with (52 + k) by lia.
    rewrite !Z.pow_add_r by lia. nia. }
  assert (Hq : Zpos m / 2 ^ k = Zpos q) by (rewrite Hm; apply Z.div_mul; lia).
  assert (Hs : shr_fexp 53 1024 (Zpos m) ex loc_Exact
               = (Build_shr_record (Zpos q) false false, ex + k)).
  { unfold shr_fexp, fexp, emin. cbn [Zdigits2]. rewrite Hdg.
    replace (Z.max (53 + k + ex - 53) (3 - 1024 - 53) - ex) with k by lia.
    destruct k as [|pk|pk]; try lia. cbn [shr shr_record_of_loc].
    pose proof (iter_shr_1_m pk (Build_shr_record (Zpos m) false false)) as M.
    destruct (iter_shr_1_exact pk (Build_shr_record (Zpos m) false false))
      as [R S]; cbn [shr_m shr_r shr_s]; auto; try lia.
    { exists (Zpos q). exact Hm. }
    cbn [shr_m] in M. rewrite Hq in M.
    destruct (iter_pos shr_1 pk (Build_shr_record (Zpos m) false false))
      as [m' r' s']. cbn [shr_m shr_r shr_s] in *.
    rewrite M, R, S by lia. reflexivity. }
  unfold binary_round_aux. rewrite Hs.
  cbn [shr_m loc_of_shr_record round_nearest_even].
  assert (Hs2 : shr_fexp 53 1024 (Zpos q) (ex + k) loc_Exact
                = (Build_shr_record (Zpos q) false false, ex + k)).
  { unfold shr_fexp, fexp, emin. cbn [Zdigits2].
    rewrite (digits2_pos_unique q 53) by (change (53 - 1) with 52; lia).
    replace (Z.max (53 + (ex + k) - 53) (3 - 1024 - 53) - (ex + k)) with 0 by lia.
    reflexivity. }
  rewrite Hs2. cbn [shr_m].
  destruct (Z.leb_spec (ex + k) (1024 - 53)); [reflexivity | lia].
Qed.

(** Multiplying a normal float by [2^j] adds [j] to its exponent. *)
Lemma fmul_pow2 (mx : positive) (ex j : Z) :
  2 ^ 52 <= Zpos mx < 2 ^ 53 -> -1074 <= ex + j <= 971 ->
  Go.fmul (S754_finite false mx ex) (f_pow2 j) = S754_finite false mx (ex + j).
Proof.
  intros Bx He. unfold Go.fmul, Go.prec, Go.emax, SFmul, f_pow2. cbn [xorb].
  rewrite (binary_round_aux_exact_shift _ mx 52); try lia.
  f_equal. lia.
Qed.

Lemma scaled_pow2 (oor : Go.float64 -> Z) (d i : Z) :
  -52 <= i <= 10 -> 0 <= d < 2 ^ 52 ->
  scaled oor d (f_pow2 i) = Z.shiftl d i.
Proof.
  intros Hi Hd. unfold scaled.
  destruct d as [|p|p]; [now rewrite Z.shiftl_0_l | | lia].
  destruct (float64_of_int_shape p)
    as [[_ Hbig] | (mx & ex & -> & Bx & [[Hex Hmx] | (Hex & _ & Hup)])].
  - assert (2 ^ 52 < 2 ^ 1023) by (apply Z.pow_lt_mono_r; lia). lia.
  - rewrite fmul_pow2 by (try assumption; lia).
    unfold Go.int64_of_float, Go.ftrunc. cbn [cond_Zopp].
    assert (E : Z.shiftl (Zpos mx) (ex + i) = Z.shiftl (Zpos p) i).
    { rewrite Hmx, <- (Z.shiftl_mul_pow2 (Zpos p) (- ex)) by lia.
      rewrite Z.shiftl_shiftl by lia. f_equal. lia. }
    rewrite E.
    assert (B : 0 <= Z.shiftl (Zpos p) i < 2 ^ 63).
    { destruct (Z.le_gt_cases 0 i).
      - rewrite Z.shiftl_mul_pow2 by assumption.
        assert (2 ^ i <= 2 ^ 10) by (apply Z.pow_le_mono_r; lia).
        assert (0 < 2 ^ i) by (apply Z.pow_pos_nonneg; lia).
        change (2 ^ 63) with (2 ^ 53 * 2 ^ 10).
        change (2 ^ 53) with (2 * 2 ^ 52). nia.
      - rewrite Z.shiftl_div_pow2 by lia.
        assert (0 < 2 ^ (- i)) by (apply Z.pow_pos_nonneg; lia).
        split; [apply Z.div_pos; lia|].
        apply Z.div_lt_upper_bound; [assumption|].
        assert (2 ^ 52 < 2 ^ 63) by (apply Z.pow_lt_mono_r; lia). nia. }
    unfold Go.in_int64b, Go.min_int64, Go.max_int64.
    destruct (Z.leb_spec (- 2 ^ 63) (Z.shiftl (Zpos p) i)),
             (Z.leb_spec (Z.shiftl (Zpos p) i) (2 ^ 63 - 1));
      cbn; try lia; reflexivity.
  - assert (2 ^ 1 <= 2 ^ ex) by (apply Z.pow_le_mono_r; lia).
    change (2 ^ 1) with 2 in *. change (2 ^ 53) with (2 * 2 ^ 52) in Bx. nia.
Qed.

(** X11. A rate that is a power of two scales a delay exactly: for
    [-52 <= j <= 10] and [0 <= d < 2^52] nanoseconds,
    [time.Duration(float64(d) * 2^j)] is [d] shifted by [j] bits, on every
    platform.  Rate [2] doubles the delay, as the doc comment of [Rate]
    says, rate [1] leaves it as it is, and rate [1/2] halves it, rounding
    down. *)
Theorem scaled_by_power_of_two (oor : Go.float64 -> Z) (d j : Z) :
  0 <= d < 2 ^ 52 -> -52 <= j <= 10 ->
  scaled oor d (f_pow2 j) = Z.shiftl d j /\
  scaled oor d f_two = 2 * d /\
  scaled oor d f_one = d /\
  scaled oor d f_half = d / 2.
Proof.
  intros Hd Hj. split; [apply scaled_pow2; assumption|].
  split; [|split].
  - change f_two with (f_pow2 1). rewrite scaled_pow2 by lia.
    rewrite Z.shiftl_mul_pow2 by lia. change (2 ^ 1) with 2. lia.
  - change f_one with (f_pow2 0). rewrite scaled_pow2 by lia.
    apply Z.shiftl_0_r.
  - change f_half with (f_pow2 (-1)). rewrite scaled_pow2 by lia.
    rewrite Z.shiftl_div_pow2 by lia. reflexivity.
Qed.

Lemma scaled_by_power_of_two_witness :
  (0 <= 1500000 < 2 ^ 52 /\ -52 <= 3 <= 10) /\
  scaled Go.oor_amd64 1500000 (f_pow2 3) = 12000000 /\
  scaled Go.oor_amd64 1500000 f_half = 750000.
Proof.
  assert (Hd : 0 <= 1500000 < 2 ^ 52)
    by (vm_compute; split; [discriminate | reflexivity]).
  assert (Hj : -52 <= 3 <= 10) by lia.
  destruct (scaled_by_power_of_two Go.oor_amd64 1500000 3 Hd Hj)
    as (H1 & _ & _ & H4).
  split; [split; assumption|]. split; [exact H1 | exact H4].
Defined.

(** ** The back-off curve for rates that are powers of two *)

Section Curve.

Variable oor : Go.float64 -> Z.

(** A [wait] that, on an unlimited budget [U] and without cancellation,
    sleeps for the grown delay and stores it raised to the floor. *)
Variable wait : Retrier -> World -> Outcome.
Variable U : Retrier -> Prop.

Hypothesis wait_keeps : forall r w,
  Floor (after (wait r w)) = Floor r /\ Ceil (after (wait r w)) = Ceil r /\
  Rate (after (wait r w)) = Rate r /\ Jitter (after (wait r w)) = Jitter r.

Hypothesis wait_sleeps : forall r w, quiet w -> U r ->
  ok (wait r w) = true /\
  timer (wait r w) = Some (Delay (grow oor r w)) /\
  Delay (after (wait r w)) = Z.max (Delay (grow oor r w)) (Floor r) /\
  U (after (wait r w)).

Lemma delays_cons r w ws :
  quiet w -> U r ->
  delays (fst (run wait r (calls (w :: ws))))
    = Delay (grow oor r w)
      :: delays (fst (run wait (after (wait r w)) (calls ws))).
Proof.
  intros Hw Hu. cbn [calls map run]. change (map CallWait ws) with (calls ws).
  destruct (wait_sleeps r w Hw Hu) as (Hok & Ht & _).
  destruct (run wait (after (wait r w)) (calls ws)) as [os r'].
  cbn [fst delays]. now rewrite Hok, Ht.
Qed.

Lemma grow_pow2 r w j :
  Go.feqb (Jitter r) Go.fzero = true -> Rate r = f_pow2 j ->
  -52 <= j <= 10 -> 0 <= Delay r -> Ceil r <= 2 ^ 52 ->
  Delay (grow oor r w) =
    Z.min (if Delay r <? Ceil r then Z.shiftl (Delay r) j else Delay r) (Ceil r).
Proof.
  intros Hj Hr Hjr H0 Hc. rewrite grow_no_jitter by assumption.
  destruct (Z.ltb_spec (Delay r) (Ceil r)); [|reflexivity].
  rewrite Hr, scaled_pow2 by lia. reflexivity.
Qed.

(** Rate 2, from a stored delay [D] between floor and ceiling: call [i]
    sleeps for [min (D * 2^i) Ceil]. *)
Lemma doubling_run ws : forall r,
  Forall quiet ws -> U r ->
  Go.feqb (Jitter r) Go.fzero = true -> Rate r = f_two ->
  0 < Floor r -> Floor r <= Delay r -> Delay r <= Ceil r -> Ceil r <= 2 ^ 52 ->
  delays (fst (run wait r (calls ws)))
    = map (fun i => Z.min (Delay r * 2 ^ Z.of_nat i) (Ceil r))
          (seq 1 (length ws)).
Proof.
  induction ws as [|w ws IH]; intros r Hq Hu Hj Hr Hf Hfd Hdc Hc;
    [reflexivity|].
  inversion Hq as [|? ? Hw Hq']; subst.
  rewrite delays_cons by assumption.
  destruct (wait_keeps r w) as (Ff & Fc & Fr & Fj).
  destruct (wait_sleeps r w Hw Hu) as (_ & _ & Hd & Hu').
  assert (Hg : Delay (grow oor r w) = Z.min (Delay r * 2) (Ceil r)).
  { rewrite (grow_pow2 r w 1) by (auto; lia).
    rewrite Z.shiftl_mul_pow2 by lia. change (2 ^ 1) with 2.
    destruct (Z.ltb_spec (Delay r) (Ceil r)); lia. }
  rewrite Hg in *. rewrite Z.max_l in Hd by lia.
  rewrite IH; rewrite ?Fj, ?Fr, ?Ff, ?Fc, ?Hd; auto; try lia.
  cbn [length seq map]. f_equal.
  rewrite <- (seq_shift (length ws) 1), map_map. apply map_ext. intros i.
  rewrite Nat2Z.inj_succ, Z.pow_succ_r by lia.
  assert (0 < 2 ^ Z.of_nat i) by (apply Z.pow_pos_nonneg; lia).
  destruct (Z.le_gt_cases (Delay r * 2) (Ceil r)).
  - rewrite (Z.min_l (Delay r * 2)) by assumption. f_equal. ring.
  - rewrite (Z.min_r (Delay r * 2)) by lia.
    rewrite !Z.min_r; nia.
Qed.

(** A rate [2^j] with [j <= 0], from a stored delay equal to a floor below
    the ceiling: every call sleeps for the floor shifted by [j] and stores
    the floor again. *)
Lemma flat_run ws : forall r j,
  Forall quiet ws -> U r ->
  Go.feqb (Jitter r) Go.fzero = true -> Rate r = f_pow2 j -> -52 <= j <= 0 ->
  0 < Floor r -> Delay r = Floor r -> Floor r < Ceil r -> Ceil r <= 2 ^ 52 ->
  delays (fst (run wait r (calls ws)))
    = repeat (Z.shiftl (Floor r) j) (length ws).
Proof.
  induction ws as [|w ws IH]; intros r j Hq Hu Hj Hr Hjr Hf Hd Hfc Hc;
    [reflexivity|].
  inversion Hq as [|? ? Hw Hq']; subst.
  rewrite delays_cons by assumption.
  destruct (wait_keeps r w) as (Ff & Fc & Fr & Fj).
  destruct (wait_sleeps r w Hw Hu) as (_ & _ & Hs & Hu').
  assert (Hle : 0 <= Z.shiftl (Floor r) j <= Floor r).
  { rewrite Z.shiftl_div_pow2 by lia.
    assert (0 < 2 ^ (- j)) by (apply Z.pow_pos_nonneg; lia).
    split; [apply Z.div_pos; lia|].
    apply Z.div_le_upper_bound; [assumption | nia]. }
  assert (Hg : Delay (grow oor r w) = Z.shiftl (Floor r) j).
  { rewrite (grow_pow2 r w j) by (auto; lia). rewrite Hd.
    destruct (Z.ltb_spec (Floor r) (Ceil r)); lia. }
  rewrite Hg in *. rewrite Z.max_r in Hs by lia.
  rewrite (IH _ j); rewrite ?Fj, ?Fr, ?Ff, ?Fc, ?Hs; auto.
Qed.

(** The first call of a fresh or reset instance, then the rest. *)
Lemma first_then r w ws j :
  quiet w -> U r ->
  Go.feqb (Jitter r) Go.fzero = true -> Rate r = f_pow2 j -> -52 <= j <= 10 ->
  Delay r = 0 -> 0 < Floor r -> Floor r <= Ceil r -> Ceil r <= 2 ^ 52 ->
  delays (fst (run wait r (calls (w :: ws))))
    = 0 :: delays (fst (run wait (after (wait r w)) (calls ws))) /\
  Delay (after (wait r w)) = Floor r.
Proof.
  intros Hw Hu Hj Hr Hjr Hd Hf Hfc Hc.
  rewrite delays_cons by assumption.
  destruct (wait_sleeps r w Hw Hu) as (_ & _ & Hs & _).
  assert (Hg : Delay (grow oor r w) = 0).
  { rewrite (grow_pow2 r w j) by (auto; lia). rewrite Hd, Z.shiftl_0_l.
    destruct (Z.ltb_spec 0 (Ceil r)); lia. }
  rewrite Hg in *. split; [reflexivity | lia].
Qed.

End Curve.

Section CurveInstances.

Variable oor : Go.float64 -> Z.

Lemma Wait_go_sleeps r w :
  quiet w -> Attempts r <= 0 ->
  ok (retrier_go.Wait oor r w) = true /\
  timer (retrier_go.Wait oor r w) = Some (Delay (grow oor r w)) /\
  Delay (after (retrier_go.Wait oor r w))
    = Z.max (Delay (grow oor r w)) (Floor r) /\
  Attempts (after (retrier_go.Wait oor r w)) <= 0.
Proof.
  intros Hw Hu. destruct (unlimited_go_step oor r w Hu) as [Ha Hok].
  specialize (Hok Hw). pose proof (Wait_go_quiet oor r w Hw) as Hq.
  rewrite Hok in Hq. destruct Hq as [Ht Hd]. repeat split; auto. lia.
Qed.

Lemma Wait_001_sleeps r w :
  quiet w -> Attempts r < 0 ->
  ok (part_001.Wait oor r w) = true /\
  timer (part_001.Wait oor r w) = Some (Delay (grow oor r w)) /\
  Delay (after (part_001.Wait oor r w))
    = Z.max (Delay (grow oor r w)) (Floor r) /\
  Attempts (after (part_001.Wait oor r w)) < 0.
Proof.
  intros Hw Hu. destruct (unlimited_001_step oor r w Hu) as [Ha Hok].
  specialize (Hok Hw). pose proof (Wait_001_quiet oor r w Hw) as Hq.
  rewrite Hok in Hq. destruct Hq as [Ht Hd]. repeat split; auto. lia.
Qed.

(** The curves from a zero delay, for any struct with an unlimited
    budget. *)
Lemma doubling_go r w ws :
  quiet w -> Forall quiet ws -> Attempts r <= 0 ->
  Go.feqb (Jitter r) Go.fzero = true -> Rate r = f_two -> Delay r = 0 ->
  0 < Floor r -> Floor r <= Ceil r -> Ceil r <= 2 ^ 52 ->
  delays (fst (run (retrier_go.Wait oor) r (calls (w :: ws))))
    = 0 :: map (fun i => Z.min (Floor r * 2 ^ Z.of_nat i) (Ceil r))
               (seq 1 (length ws)).
Proof.
  intros Hw Hq Hu Hj Hr Hd Hf Hfc Hc.
  destruct (first_then oor (retrier_go.Wait oor) (fun x => Attempts x <= 0)
              Wait_go_sleeps r w ws 1) as [E Hs]; auto; try lia.
  destruct (Wait_go_frame oor r w) as (Ff & Fc & Fr & Fj).
  rewrite E. f_equal.
  rewrite (doubling_run oor (retrier_go.Wait oor) (fun x => Attempts x <= 0)
             (Wait_go_frame oor) Wait_go_sleeps);
    rewrite ?Fj, ?Fr, ?Ff, ?Fc, ?Hs; auto; try lia.
  now apply Wait_go_sleeps.
Qed.

Lemma doubling_001 r w ws :
  quiet w -> Forall quiet ws -> Attempts r < 0 ->
  Go.feqb (Jitter r) Go.fzero = true -> Rate r = f_two -> Delay r = 0 ->
  0 < Floor r -> Floor r <= Ceil r -> Ceil r <= 2 ^ 52 ->
  delays (fst (run (part_001.Wait oor) r (calls (w :: ws))))
    = 0 :: map (fun i => Z.min (Floor r * 2 ^ Z.of_nat i) (Ceil r))
               (seq 1 (length ws)).
Proof.
  intros Hw Hq Hu Hj Hr Hd Hf Hfc Hc.
  destruct (first_then oor (part_001.Wait oor) (fun x => Attempts x < 0)
              Wait_001_sleeps r w ws 1) as [E Hs]; auto; try lia.
  destruct (Wait_001_frame oor r w) as (Ff & Fc & Fr & Fj).
  rewrite E. f_equal.
  rewrite (doubling_run oor (part_001.Wait oor) (fun x => Attempts x < 0)
             (Wait_001_frame oor) Wait_001_sleeps);
    rewrite ?Fj, ?Fr, ?Ff, ?Fc, ?Hs; auto; try lia.
  now apply Wait_001_sleeps.
Qed.

Lemma flat_go r w ws j :
  quiet w -> Forall quiet ws -> Attempts r <= 0 ->
  Go.feqb (Jitter r) Go.fzero = true -> Rate r = f_pow2 j -> -52 <= j <= 0 ->
  Delay r = 0 -> 0 < Floor r -> Floor r < Ceil r -> Ceil r <= 2 ^ 52 ->
  delays (fst (run (retrier_go.Wait oor) r (calls (w :: ws))))
    = 0 :: repeat (Z.shiftl (Floor r) j) (length ws).
Proof.
  intros Hw Hq Hu Hj Hr Hjr Hd Hf Hfc Hc.
  destruct (first_then oor (retrier_go.Wait oor) (fun x => Attempts x <= 0)
              Wait_go_sleeps r w ws j) as [E Hs]; auto; try lia.
  destruct (Wait_go_frame oor r w) as (Ff & Fc & Fr & Fj).
  rewrite E. f_equal.
  rewrite (flat_run oor (retrier_go.Wait oor) (fun x => Attempts x <= 0)
             (Wait_go_frame oor) Wait_go_sleeps ws _ j);
    rewrite ?Fj, ?Fr, ?Ff, ?Fc, ?Hs; auto; try lia.
  now apply Wait_go_sleeps.
Qed.

Lemma flat_001 r w ws j :
  quiet w -> Forall quiet ws -> Attempts r < 0 ->
  Go.feqb (Jitter r) Go.fzero = true -> Rate r = f_pow2 j -> -52 <= j <= 0 ->
  Delay r = 0 -> 0 < Floor r -> Floor r < Ceil r -> Ceil r <= 2 ^ 52 ->
  delays (fst (run (part_001.Wait oor) r (calls (w :: ws))))
    = 0 :: repeat (Z.shiftl (Floor r) j) (length ws).
Proof.
  intros Hw Hq Hu Hj Hr Hjr Hd Hf Hfc Hc.
  destruct (first_then oor (part_001.Wait oor) (fun x => Attempts x < 0)
              Wait_001_sleeps r w ws j) as [E Hs]; auto; try lia.
  destruct (Wait_001_frame oor r w) as (Ff & Fc & Fr & Fj).
  rewrite E. f_equal.
  rewrite (flat_run oor (part_001.Wait oor) (fun x => Attempts x < 0)
             (Wait_001_frame oor) Wait_001_sleeps ws _ j);
    rewrite ?Fj, ?Fr, ?Ff, ?Fc, ?Hs; auto; try lia.
  now apply Wait_001_sleeps.
Qed.

End CurveInstances.

(** X12. The back-off curve in closed form for rate [2]: a retrier made by
    [New(floor, ceil)] with rate [2], [0 < floor <= ceil <= 2^52]ns,
    jitter off and the default unlimited budget sleeps, without
    cancellation, for [0] on the first call and for
    [min (floor * 2^i) ceil] on call [i + 1], in both files and on every
    platform. *)
Theorem doubling_curve
    (oor : Go.float64 -> Z) (floor ceil : Duration) (w : World) (ws : list World) :
  quiet w -> Forall quiet ws ->
  0 < floor -> floor <= ceil -> ceil <= 2 ^ 52 ->
  delays (fst (run (retrier_go.Wait oor)
                 (setRate f_two (retrier_go.New floor ceil))
                 (calls (w :: ws))))
    = 0 :: map (fun i => Z.min (floor * 2 ^ Z.of_nat i) ceil)
               (seq 1 (length ws)) /\
  delays (fst (run (part_001.Wait oor)
                 (part_001.New floor ceil [part_001.Opt.Rate f_two])
                 (calls (w :: ws))))
    = 0 :: map (fun i => Z.min (floor * 2 ^ Z.of_nat i) ceil)
               (seq 1 (length ws)).
Proof.
  intros Hw Hq Hf Hfc Hc. split.
  - apply (doubling_go oor (setRate f_two (retrier_go.New floor ceil)));
      cbn; auto; lia.
  - apply (doubling_001 oor
             (part_001.New floor ceil [part_001.Opt.Rate f_two]));
      cbn; auto; lia.
Qed.

Lemma doubling_curve_witness :
  let ws := repeat calm 8 in
  (0 < Millisecond /\ Millisecond <= 100 * Millisecond /\
   100 * Millisecond <= 2 ^ 52) /\
  delays (fst (run (retrier_go.Wait Go.oor_amd64)
                 (setRate f_two (retrier_go.New Millisecond (100 * Millisecond)))
                 (calls (calm :: ws))))
    = [0; 2000000; 4000000; 8000000; 16000000; 32000000; 64000000;
       100000000; 100000000].
Proof.
  intros ws.
  assert (Hw : quiet calm) by (split; reflexivity).
  assert (Hq : Forall quiet ws) by (repeat constructor).
  assert (H1 : 0 < Millisecond) by reflexivity.
  assert (H2 : Millisecond <= 100 * Millisecond) by (vm_compute; discriminate).
  assert (H3 : 100 * Millisecond <= 2 ^ 52) by (vm_compute; discriminate).
  split; [repeat split; assumption|].
  exact (proj1 (doubling_curve Go.oor_amd64 Millisecond (100 * Millisecond)
                  calm ws Hw Hq H1 H2 H3)).
Defined.

(** X13. A rate of [1] or below does not back off.  With rate [2^j],
    [-52 <= j <= 0], [0 < floor < ceil <= 2^52]ns, jitter off and the
    default unlimited budget, every call after the first sleeps for the
    floor shifted right by [-j] bits: the floor itself for rate [1], half
    of it for rate [1/2].  The floor bounds the stored delay, not the
    sleep. *)
Theorem rate_at_most_one_is_flat
    (oor : Go.float64 -> Z) (floor ceil : Duration) (j : Z)
    (w : World) (ws : list World) :
  quiet w -> Forall quiet ws -> -52 <= j <= 0 ->
  0 < floor -> floor < ceil -> ceil <= 2 ^ 52 ->
  delays (fst (run (retrier_go.Wait oor)
                 (setRate (f_pow2 j) (retrier_go.New floor ceil))
                 (calls (w :: ws))))
    = 0 :: repeat (Z.shiftl floor j) (length ws) /\
  delays (fst (run (part_001.Wait oor)
                 (part_001.New floor ceil [part_001.Opt.Rate (f_pow2 j)])
                 (calls (w :: ws))))
    = 0 :: repeat (Z.shiftl floor j) (length ws).
Proof.
  intros Hw Hq Hj Hf Hfc Hc. split.
  - apply (flat_go oor (setRate (f_pow2 j) (retrier_go.New floor ceil)));
      cbn; auto; lia.
  - apply (flat_001 oor
             (part_001.New floor ceil [part_001.Opt.Rate (f_pow2 j)]));
      cbn; auto; lia.
Qed.

Lemma rate_at_most_one_is_flat_witness :
  let ws := repeat calm 3 in
  (0 < Millisecond /\ Millisecond < 100 * Millisecond) /\
  delays (fst (run (part_001.Wait Go.oor_amd64)
                 (part_001.New Millisecond (100 * Millisecond)
                    [part_001.Opt.Rate f_half])
                 (calls (calm :: ws))))
    = [0; 500000; 500000; 500000].
Proof.
  intros ws.
  assert (Hw : quiet calm) by (split; reflexivity).
  assert (Hq : Forall quiet ws) by (repeat constructor).
  assert (Hj : -52 <= -1 <= 0) by lia.
  assert (H1 : 0 < Millisecond) by reflexivity.
  assert (H2 : Millisecond < 100 * Millisecond) by reflexivity.
  assert (H3 : 100 * Millisecond <= 2 ^ 52) by (vm_compute; discriminate).
  split; [split; assumption|].
  exact (proj2 (rate_at_most_one_is_flat Go.oor_amd64 Millisecond
                  (100 * Millisecond) (-1) calm ws Hw Hq Hj H1 H2 H3)).
Defined.
